(** * fomod.validator.warnings: the warning checks of the FOMOD validator

    A shallow embedding of [src/fomod/validator/warnings.py]
    ([check_warnings], [_WarningElement], [_ElementLog], [_log_warnings])
    and the properties of the warning report that follow from it. *)

From Stdlib Require Import List String Ascii Bool PeanoNat NArith Permutation Lia.
From Stdlib Require Import DecimalString.
Import ListNotations.
Open Scope list_scope.
Open Scope string_scope.

Set Implicit Arguments.
Set Warnings "-register-all".

(** ** Exceptions and results *)

(** The exception classes the module imports or meets.  [ParseError] is
    lxml's [etree.ParseError], the payload being [str(e)]; the four classes of
    [.exceptions] carry the message they were built with and are taken as
    unrelated to one another, so that an [except] clause for one catches no
    other. *)
Inductive Exn : Type :=
| MissingFolderError (msg : string)
| MissingFileError (msg : string)
| ParseError (msg : string)
| ParserError (msg : string)
| WarningError (msg : string)
| TypeError
| KeyError (key : string)
| OtherError (name : string).

Inductive Res (A : Type) : Type :=
| OK (a : A)
| Raise (e : Exn).
Arguments OK {A} a.
Arguments Raise {A} e.

(** ** Elements of the parsed tree *)

(** An lxml element, with the four things the module reads: [tag],
    the attributes behind [get], [sourceline] ([None] when the parser
    recorded no line) and the child nodes.  A comment or a processing
    instruction is a node whose tag lies outside every tag tuple. *)
Inductive Element : Type :=
  Elem { tag : string;
         attrib : list (string * string);
         sourceline : option N;
         children : list Element }.

(** [elem_root.iter()]: the element itself, then its descendants, in
    document order. *)
Fixpoint iter (e : Element) : list Element :=
  match e with
  | Elem _ _ _ cs => e :: flat_map iter cs
  end.

(** [elem.get(key)]: the attribute's value, [None] when it is absent. *)
Fixpoint lookup_attr (l : list (string * string)) (key : string) : option string :=
  match l with
  | [] => None
  | (k, v) :: rest => if String.eqb k key then Some v else lookup_attr rest key
  end.

Definition get (elem : Element) (key : string) : option string :=
  lookup_attr (attrib elem) key.

(** [element.tag in tags] for a tuple of strings. *)
Definition tag_in (t : string) (tags : list string) : bool :=
  existsb (String.eqb t) tags.

(** Truth value of the [elem_tree] argument, as [not elem_tree] reads it:
    [None] is false, and an lxml element is true exactly when it has a
    child node ([_Element.__bool__] answers whether the element has
    children). *)
Definition truth (elem_tree : option Element) : bool :=
  match elem_tree with
  | None => false
  | Some e => match children e with [] => false | _ :: _ => true end
  end.

(** ** Strings *)

(** [str(elem.sourceline)] *)
Definition str (line : option N) : string :=
  match line with
  | None => "None"
  | Some n => NilEmpty.string_of_uint (N.to_uint n)
  end.

(** [result[:-1]] *)
Fixpoint drop_last (s : string) : string :=
  match s with
  | EmptyString => EmptyString
  | String c rest =>
      match rest with
      | EmptyString => EmptyString
      | String _ _ => String c (drop_last rest)
      end
  end.

(** [s.replace(old, new)] for a non-empty [old]: the occurrences of [old]
    are replaced from left to right, without overlap.  [skip] counts the
    characters of a matched occurrence still to pass over. *)
Fixpoint replace_from (old new s : string) (skip : nat) : string :=
  match s with
  | EmptyString => EmptyString
  | String c rest =>
      match skip with
      | S k => replace_from old new rest k
      | O =>
          if String.prefix old s
          then new ++ replace_from old new rest (String.length old - 1)
          else String c (replace_from old new rest 0)
      end
  end.

Definition replace (s old new : string) : string := replace_from old new s 0.

(** A string is true when it is not empty. *)
Definition nonempty (s : string) : bool :=
  match s with EmptyString => false | String _ _ => true end.

(** ** Dictionaries, in insertion order *)

(** A [dict] with string keys: iteration follows the order in which the
    keys were first inserted, as it does from Python 3.7 on. *)

Module Dict.
Section Dict.
Variable V : Type.

Definition t := list (string * V).

Definition keys (d : t) : list string := map fst d.

(** [d[k]], [None] standing for the KeyError *)
Fixpoint get (d : t) (k : string) : option V :=
  match d with
  | [] => None
  | (k', v) :: rest => if String.eqb k' k then Some v else get rest k
  end.

(** [k in d.keys()] *)
Definition mem (d : t) (k : string) : bool :=
  existsb (String.eqb k) (keys d).

(** [d[k] = v]: a key already present keeps its place, a new one goes last. *)
Fixpoint set (d : t) (k : string) (v : V) : t :=
  match d with
  | [] => [(k, v)]
  | (k', v') :: rest =>
      if String.eqb k' k then (k', v) :: rest else (k', v') :: set rest k v
  end.
End Dict.
End Dict.

(** ** What a run does besides computing: calls that can be observed *)

Inductive Event : Type :=
| CheckFomod (package_path : string)
| CheckFile (folder : string)
| Parse (path : string)
| Invoke (elem : Element) (group : option (list Element)).

(** A computation emits events and then returns or raises. *)
Definition M (A : Type) : Type := (list Event * Res A)%type.

Definition ret {A} (a : A) : M A := ([], OK a).
Definition raise {A} (e : Exn) : M A := ([], Raise e).
Definition tell (ev : Event) : M unit := ([ev], OK tt).
Definition lift {A} (r : Res A) : M A := ([], r).

Definition bind {A B} (m : M A) (k : A -> M B) : M B :=
  match m with
  | (l, OK a) => let (l', r) := k a in ((l ++ l')%list, r)
  | (l, Raise e) => (l, Raise e)
  end.

(** [try: m  except ...: handler] where every clause ends in a [raise] *)
Definition try_except {A} (m : M A) (handler : Exn -> Exn) : M A :=
  match m with
  | (l, OK a) => (l, OK a)
  | (l, Raise e) => (l, Raise (handler e))
  end.

Declare Scope py_scope.
Delimit Scope py_scope with py.
Notation "x <- m ;; k" := (bind m (fun x => k))
  (at level 61, m at next level, right associativity) : py_scope.
Notation "m ;; k" := (bind m (fun _ => k))
  (at level 61, right associativity) : py_scope.
Open Scope py_scope.

Definition trace {A} (m : M A) : list Event := fst m.
Definition outcome {A} (m : M A) : Res A := snd m.

(** ** The host: file system and the collaborators of [.utility] and lxml *)

(** [join] is [os.path.join] on two strings, [isdir] and [isfile] the tests
    of [os.path]; [check_fomod] and [check_file] are the two functions of
    [.utility], [parse] is [etree.parse(path).getroot()].  A collaborator
    returns or raises. *)
Record Host : Type := {
  join : string -> string -> string;
  isdir : string -> bool;
  isfile : string -> bool;
  check_fomod : string -> Res string;
  check_file : string -> Res string;
  parse : string -> Res Element
}.

(** ** Conditions *)

(** The [condition] argument of [_WarningElement]: a lambda of one
    parameter or of two. *)
Inductive Condition : Type :=
| Lambda1 (body : Element -> Res bool)
| Lambda2 (body : Element -> list Element -> Res bool).

(** The names in [signature(condition).parameters]. *)
Definition parameters (condition : Condition) : list string :=
  match condition with
  | Lambda1 _ => ["elem"]
  | Lambda2 _ => ["elem"; "x"]
  end.

(** [mapping == n]: a mapping of parameters and an integer are never equal. *)
Definition mapping_eq_int (mapping : list string) (n : nat) : bool := false.

(** [condition(elem)]: a lambda of two parameters called with one argument
    raises TypeError before its body runs. *)
Definition call1 (condition : Condition) (elem : Element) : M bool :=
  tell (Invoke elem None) ;;
  match condition with
  | Lambda1 body => lift (body elem)
  | Lambda2 _ => raise TypeError
  end.

(** [condition(elem, tag_list)] *)
Definition call2 (condition : Condition) (elem : Element) (tag_list : list Element) : M bool :=
  tell (Invoke elem (Some tag_list)) ;;
  match condition with
  | Lambda1 _ => raise TypeError
  | Lambda2 body => lift (body elem tag_list)
  end.

(** ** _ElementLog *)

Record ElementLog : Type := {
  elements : Dict.t (list Element);
  title : string;
  msgs : Dict.t string
}.

(** One turn of the first loop of [_ElementLog.__init__]. *)
Definition add_element (elements : Dict.t (list Element)) (elem_ : Element)
  : Dict.t (list Element) :=
  if negb (Dict.mem elements (tag elem_))
  then Dict.set elements (tag elem_) [elem_]
  else match Dict.get elements (tag elem_) with
       | Some l => Dict.set elements (tag elem_) (l ++ [elem_])%list
       | None => elements
       end.

(** One turn of the second loop. *)
Definition add_msg (msg : string) (msgs : Dict.t string) (elem_ : Element)
  : Dict.t string :=
  Dict.set msgs (tag elem_) (replace msg "{}" (tag elem_)).

Definition _ElementLog (elems : list Element) (title msg : string) : ElementLog :=
  {| elements := fold_left add_element elems [];
     title := title;
     msgs := fold_left (add_msg msg) elems [] |}.

(** ** _WarningElement *)

Record WarningElement : Type := { tag_log : option ElementLog }.

(** The second loop of [_WarningElement.__init__], over what is left of
    [tag_list], with [tag_result] as built so far. *)
Fixpoint evaluate (condition : Condition) (tag_list rest tag_result : list Element)
  : M (list Element) :=
  match rest with
  | [] => ret tag_result
  | elem :: rest' =>
      if mapping_eq_int (parameters condition) 2
      then
        b <- call2 condition elem tag_list ;;
        evaluate condition tag_list rest' (if b then (tag_result ++ [elem])%list else tag_result)
      else
        b <- call1 condition elem ;;
        evaluate condition tag_list rest' (if b then (tag_result ++ [elem])%list else tag_result)
  end.

Definition _WarningElement (elem_root : Element) (tags : list string)
    (title error_msg : string) (condition : Condition) : M WarningElement :=
  let tag_list := filter (fun element => tag_in (tag element) tags) (iter elem_root) in
  tag_result <- evaluate condition tag_list tag_list [] ;;
  ret {| tag_log := match tag_result with
                    | [] => None
                    | _ :: _ => Some (_ElementLog tag_result title error_msg)
                    end |}.

(** ** _log_warnings *)

(** The innermost loop: one [" " + str(elem.sourceline) + ","] per element. *)
Fixpoint log_lines (elems : list Element) (result : string) : string :=
  match elems with
  | [] => result
  | elem :: rest => log_lines rest (result ++ " " ++ str (sourceline elem) ++ ",")
  end.

(** The loop over the tags of one log. *)
Fixpoint log_tags (log : ElementLog) (tags : list string) (result : string) : Res string :=
  match tags with
  | [] => OK result
  | tag :: rest =>
      let result := result ++ "Lines" in
      match Dict.get (elements log) tag with
      | None => Raise (KeyError tag)
      | Some elems =>
          let result := log_lines elems result in
          let result := drop_last result in
          match Dict.get (msgs log) tag with
          | None => Raise (KeyError tag)
          | Some m => log_tags log rest (result ++ ": " ++ m ++ "<br>")
          end
      end
  end.

(** The loop over the logs. *)
Fixpoint log_logs (list_ : list (option ElementLog)) (result : string) : Res string :=
  match list_ with
  | [] => OK result
  | None :: rest => log_logs rest result
  | Some log :: rest =>
      let result := result ++ "<i>" ++ title log ++ "</i><br><br>" in
      match log_tags log (Dict.keys (elements log)) result with
      | Raise e => Raise e
      | OK result => log_logs rest (result ++ "<br><br>")
      end
  end.

Definition _log_warnings (list_ : list (option ElementLog)) : Res string :=
  log_logs list_ "".

(** ** check_warnings *)

Definition repeated_tags : list string :=
  ["moduleName"; "moduleImage"; "moduleDependencies"; "requiredInstallFiles";
   "installSteps"; "conditionalFileInstalls"].
Definition folder_tags : list string := ["folder"].
Definition file_tags : list string := ["file"].
Definition image_tags : list string := ["moduleImage"; "image"].

Definition repeated_title : string := "Repeated Elements".
Definition folder_title : string := "Missing Source Folders".
Definition file_title : string := "Missing Source Files".
Definition image_title : string := "Missing Images".

Definition repeated_msg : string :=
  "The tag {} has several occurrences, this may produce unexpected results.".
Definition folder_msg : string :=
  "These source folders weren't found inside the package. " ++
  "The installers ignore this so be sure to fix it.".
Definition file_msg : string :=
  "These source files weren't found inside the package. " ++
  "The installers ignore this so be sure to fix it.".
Definition image_msg : string :=
  "These images weren't found inside the package. " ++
  "The installers ignore this so be sure to fix it.".

(** The clauses of the [except] part: the two location errors are raised
    again, a [ParseError] becomes [ParserError(str(e))], and any other
    exception is not caught. *)
Definition handler (e : Exn) : Exn :=
  match e with
  | MissingFolderError _ => e
  | MissingFileError _ => e
  | ParseError m => ParserError m
  | _ => e
  end.

Section CheckWarnings.
Variable host : Host.

(** [join(package_path, elem.get(key))]: [os.path.join] raises TypeError
    when handed the [None] of an absent attribute. *)
Definition join_attr (package_path : string) (value : option string) : Res string :=
  match value with
  | None => Raise TypeError
  | Some s => OK (join host package_path s)
  end.

(** [lambda elem, x: sum(1 for value in x if value.tag == elem.tag) >= 2] *)
Definition repeated_condition : Condition :=
  Lambda2 (fun elem x =>
    OK (Nat.leb 2 (List.length (filter (fun value => String.eqb (tag value) (tag elem)) x)))).

(** [lambda elem: not isdir(join(package_path, elem.get("source")))] *)
Definition folder_condition (package_path : string) : Condition :=
  Lambda1 (fun elem =>
    match join_attr package_path (get elem "source") with
    | OK p => OK (negb (isdir host p))
    | Raise e => Raise e
    end).

(** [lambda elem: not isfile(join(package_path, elem.get("source")))] *)
Definition file_condition (package_path : string) : Condition :=
  Lambda1 (fun elem =>
    match join_attr package_path (get elem "source") with
    | OK p => OK (negb (isfile host p))
    | Raise e => Raise e
    end).

(** [lambda elem: not isfile(join(package_path, elem.get("path")))] *)
Definition image_condition (package_path : string) : Condition :=
  Lambda1 (fun elem =>
    match join_attr package_path (get elem "path") with
    | OK p => OK (negb (isfile host p))
    | Raise e => Raise e
    end).

(** The branch taken when [not elem_tree] holds: the three collaborators,
    in turn. *)
Definition locate (package_path : string) : M Element :=
  fomod_folder <- (tell (CheckFomod package_path) ;;
                   lift (check_fomod host package_path)) ;;
  config_file <- (tell (CheckFile (join host package_path fomod_folder)) ;;
                  lift (check_file host (join host package_path fomod_folder))) ;;
  tell (Parse (join host (join host package_path fomod_folder) config_file)) ;;
  lift (parse host (join host (join host package_path fomod_folder) config_file)).

(** Lines 30 to 35: which tree is validated. *)
Definition config_root (package_path : string) (elem_tree : option Element) : M Element :=
  match elem_tree with
  | None => locate package_path
  | Some t => if negb (truth elem_tree) then locate package_path else ret t
  end.

(** Lines 37 to 60: the four [_WarningElement] objects, built in order. *)
Definition element_list (package_path : string) (root : Element) : M (list WarningElement) :=
  w1 <- _WarningElement root repeated_tags repeated_title repeated_msg
          repeated_condition ;;
  w2 <- _WarningElement root folder_tags folder_title folder_msg
          (folder_condition package_path) ;;
  w3 <- _WarningElement root file_tags file_title file_msg
          (file_condition package_path) ;;
  w4 <- _WarningElement root image_tags image_title image_msg
          (image_condition package_path) ;;
  ret [w1; w2; w3; w4].

Definition check_warnings (package_path : string) (elem_tree : option Element) : M unit :=
  try_except
    (root <- config_root package_path elem_tree ;;
     element_list <- element_list package_path root ;;
     let log_list := map tag_log element_list in
     result <- lift (_log_warnings log_list) ;;
     if nonempty result then raise (WarningError result) else ret tt)
    handler.

End CheckWarnings.

(** ** Sample hosts and trees *)

(** [posixpath.join] on two strings. *)
Definition posix_join (a b : string) : string :=
  if String.prefix "/" b then b
  else if orb (String.eqb a "") (String.eqb (substring (String.length a - 1) 1 a) "/")
       then a ++ b
       else a ++ "/" ++ b.

(** A package without a [fomod] folder, holding a directory [textures]. *)
Definition bare_host : Host :=
  {| join := posix_join;
     isdir := fun p => String.eqb p "pkg/textures";
     isfile := fun p => String.eqb p "pkg/readme.txt";
     check_fomod := fun _ => Raise (MissingFolderError "fomod");
     check_file := fun _ => Raise (MissingFileError "ModuleConfig.xml");
     parse := fun _ => Raise (ParseError "no element found") |}.

Definition leaf (t : string) (a : list (string * string)) (line : N) : Element :=
  Elem t a (Some line) [].

(** Two [moduleName] elements, on lines 4 and 9. *)
Definition two_names : Element :=
  Elem "config" [] (Some 1%N)
    [leaf "moduleName" [] 4; leaf "moduleName" [] 9].

(** Folders and files, some of them missing from [bare_host]. *)
Definition some_missing : Element :=
  Elem "config" [] (Some 1%N)
    [leaf "folder" [("source", "textures")] 3;
     leaf "folder" [("source", "meshes")] 4;
     leaf "file" [("source", "plugin.esp")] 5;
     leaf "image" [("path", "a.png")] 6;
     leaf "folder" [("source", "sound")] 7;
     leaf "file" [("source", "readme.txt")] 8].

(** A package whose [fomod] folder holds no configuration file. *)
Definition no_file_host : Host :=
  {| join := posix_join;
     isdir := fun p => String.eqb p "pkg/fomod";
     isfile := fun _ => false;
     check_fomod := fun _ => OK "fomod";
     check_file := fun _ => Raise (MissingFileError "ModuleConfig.xml");
     parse := fun _ => Raise (OtherError "OSError") |}.

(** A package whose configuration file is not well-formed. *)
Definition bad_xml_host : Host :=
  {| join := posix_join;
     isdir := fun p => String.eqb p "pkg/fomod";
     isfile := fun p => String.eqb p "pkg/fomod/ModuleConfig.xml";
     check_fomod := fun _ => OK "fomod";
     check_file := fun _ => OK "ModuleConfig.xml";
     parse := fun _ => Raise (ParseError "Premature end of data in tag config line 1") |}.

(** A package whose configuration file names one folder, which exists. *)
Definition clean_tree : Element :=
  Elem "config" [] (Some 1%N)
    [leaf "installStep" [("name", "Main")] 2;
     leaf "folder" [("source", "textures")] 3].

Definition clean_host : Host :=
  {| join := posix_join;
     isdir := fun p => orb (String.eqb p "pkg/fomod") (String.eqb p "pkg/textures");
     isfile := fun p => String.eqb p "pkg/fomod/ModuleConfig.xml";
     check_fomod := fun _ => OK "fomod";
     check_file := fun _ => OK "ModuleConfig.xml";
     parse := fun p => if String.eqb p "pkg/fomod/ModuleConfig.xml"
                       then OK clean_tree
                       else Raise (OtherError "OSError") |}.

(** No element of this tree carries a tag of any rule. *)
Definition plain_tree : Element :=
  Elem "config" [] (Some 1%N)
    [Elem "installStep" [("name", "Main")] (Some 2%N)
       [leaf "plugin" [("name", "Core")] 3]].

(** Three elements with tags of the first rule. *)
Definition three_special : Element :=
  Elem "config" [] (Some 1%N)
    [leaf "moduleName" [] 2; leaf "installSteps" [] 3; leaf "moduleName" [] 7].

(** A childless root. *)
Definition childless : Element := leaf "config" [] 1.

(** An image without [path]. *)
Definition image_without_path : Element :=
  Elem "config" [] (Some 1%N) [leaf "image" [] 5].

(** A folder without [source], then a folder that is missing. *)
Definition folder_without_source : Element :=
  Elem "config" [] (Some 1%N)
    [leaf "folder" [] 3; leaf "folder" [("source", "meshes")] 4].

(** ** Auxiliary notions for stating the properties *)

(** The first exception a one-parameter body raises along a list. *)
Fixpoint first_error (body : Element -> Res bool) (l : list Element) : option Exn :=
  match l with
  | [] => None
  | e :: rest =>
      match body e with
      | Raise ex => Some ex
      | OK _ => first_error body rest
      end
  end.

(** The elements a loop gets to: those up to the first raising one. *)
Fixpoint evaluated (body : Element -> Res bool) (l : list Element) : list Element :=
  match l with
  | [] => []
  | e :: rest =>
      e :: match body e with
           | Raise _ => []
           | OK _ => evaluated body rest
           end
  end.

Definition returns_true (r : Res bool) : bool :=
  match r with OK true => true | _ => false end.

(** The elements a rule matches, in document order. *)
Definition matched (tags : list string) (root : Element) : list Element :=
  filter (fun element => tag_in (tag element) tags) (iter root).

(** The matched elements on which [condition(elem)] returns true. *)
Definition flagged (condition : Condition) (tags : list string) (root : Element)
  : list Element :=
  filter (fun elem => returns_true (outcome (call1 condition elem))) (matched tags root).

(** What [_WarningElement] stores for a given [tag_result]. *)
Definition finding (tag_result : list Element) (title msg : string) : option ElementLog :=
  match tag_result with
  | [] => None
  | _ :: _ => Some (_ElementLog tag_result title msg)
  end.

(** The rules of [element_list], in the order of declaration. *)
Definition rules (host : Host) (package_path : string)
  : list (list string * string * string * Condition) :=
  [(repeated_tags, repeated_title, repeated_msg, repeated_condition);
   (folder_tags, folder_title, folder_msg, folder_condition host package_path);
   (file_tags, file_title, file_msg, file_condition host package_path);
   (image_tags, image_title, image_msg, image_condition host package_path)].

(** What the rule does on a tree: its [tag_log], or the exception. *)
Definition rule_result (root : Element)
    (rule : list string * string * string * Condition) : Res WarningElement :=
  let '(tags, title, msg, condition) := rule in
  match first_error (fun e => outcome (call1 condition e)) (matched tags root) with
  | Some ex => Raise ex
  | None => OK {| tag_log := finding (flagged condition tags root) title msg |}
  end.

Fixpoint rule_results (root : Element)
    (rs : list (list string * string * string * Condition)) : Res (list WarningElement) :=
  match rs with
  | [] => OK []
  | rule :: rest =>
      match rule_result root rule with
      | Raise ex => Raise ex
      | OK w => match rule_results root rest with
                | Raise ex => Raise ex
                | OK ws => OK (w :: ws)
                end
      end
  end.

(** The calls the rules make on a tree, up to the first that raises. *)
Fixpoint rule_traces (root : Element)
    (rs : list (list string * string * string * Condition)) : list Event :=
  match rs with
  | [] => []
  | (tags, _, _, condition) :: rest =>
      (map (fun e => Invoke e None)
           (evaluated (fun e => outcome (call1 condition e)) (matched tags root)) ++
       match first_error (fun e => outcome (call1 condition e)) (matched tags root) with
       | Some _ => []
       | None => rule_traces root rest
       end)%list
  end.

(** Lines 37 to 69, on the tree [root] that lines 30 to 35 settled on. *)
Definition validate (host : Host) (package_path : string) (root : Element) : M unit :=
  element_list <- element_list host package_path root ;;
  let log_list := map tag_log element_list in
  result <- lift (_log_warnings log_list) ;;
  if nonempty result then raise (WarningError result) else ret tt.

(** One of the three collaborators raises [e], those before it having
    returned. *)
Definition location_fails (host : Host) (package_path : string) (e : Exn) : Prop :=
  check_fomod host package_path = Raise e \/
  exists fomod_folder,
    check_fomod host package_path = OK fomod_folder /\
    (check_file host (join host package_path fomod_folder) = Raise e \/
     exists config_file,
       check_file host (join host package_path fomod_folder) = OK config_file /\
       parse host (join host (join host package_path fomod_folder) config_file) = Raise e).

(** An element without the attribute its file-system rule reads. *)
Definition lacks_attribute (e : Element) : Prop :=
  ((tag e = "folder" \/ tag e = "file") /\ get e "source" = None) \/
  ((tag e = "moduleImage" \/ tag e = "image") /\ get e "path" = None).

(** The three rules that look at the file system. *)
Definition filesystem_rules (host : Host) (package_path : string)
  : list (list string * string * string * Condition) :=
  tl (rules host package_path).

(** The logs and the report of a sample run, read off the model. *)
Definition logs_of (host : Host) (package_path : string) (root : Element)
  : list WarningElement :=
  match outcome (element_list host package_path root) with
  | OK ws => ws
  | Raise _ => []
  end.

Definition report_of (host : Host) (package_path : string) (root : Element) : string :=
  match _log_warnings (map tag_log (logs_of host package_path root)) with
  | OK r => r
  | Raise _ => ""
  end.

(** ** The report, as the specification words it *)

(** The distinct strings of a list, in the order of their first occurrence. *)
Fixpoint first_seen (l : list string) : list string :=
  match l with
  | [] => []
  | t :: rest => t :: filter (fun u => negb (String.eqb u t)) (first_seen rest)
  end.

(** The strings of a list, one after the other. *)
Definition join_all (l : list string) : string := fold_right append "" l.

(** The elements of a tag, in the order they have in [flagged]. *)
Definition with_tag (t : string) (flagged : list Element) : list Element :=
  filter (fun e => String.eqb (tag e) t) flagged.

(** The line numbers of a tag group, separated by commas. *)
Definition spec_lines (group : list Element) : string :=
  String.concat ", " (map (fun e => str (sourceline e)) group).

(** One tag group: its line numbers, then the message with the tag in it. *)
Definition spec_group (msg : string) (flagged : list Element) (t : string) : string :=
  "Lines " ++ spec_lines (with_tag t flagged) ++ ": " ++ replace msg "{}" t ++ "<br>".

(** One Finding: nothing when no element is flagged, else the title and
    the tag groups in first-seen order. *)
Definition spec_finding (title msg : string) (flagged : list Element) : string :=
  match flagged with
  | [] => ""
  | _ :: _ =>
      "<i>" ++ title ++ "</i><br><br>" ++
      join_all (map (spec_group msg flagged) (first_seen (map tag flagged))) ++
      "<br><br>"
  end.

(** The report: the Findings one after the other, in the order given. *)
Definition spec_report (findings : list (string * string * list Element)) : string :=
  join_all (map (fun '(title, msg, flagged) => spec_finding title msg flagged) findings).

(** The groups and the messages of a log, tag by tag. *)
Definition spec_elements (flagged : list Element) : Dict.t (list Element) :=
  map (fun t => (t, with_tag t flagged)) (first_seen (map tag flagged)).

Definition spec_msgs (msg : string) (flagged : list Element) : Dict.t string :=
  map (fun t => (t, replace msg "{}" t)) (first_seen (map tag flagged)).

(** The title, the message and the flagged elements of each rule. *)
Definition findings_of (host : Host) (package_path : string) (root : Element)
  : list (string * string * list Element) :=
  map (fun '(tags, title, msg, condition) => (title, msg, flagged condition tags root))
      (rules host package_path).

(** Every tag of the [elements] of a log has a message in its [msgs]. *)
Definition has_messages (log : ElementLog) : Prop :=
  forall t, In t (Dict.keys (elements log)) -> Dict.get (msgs log) t <> None.

(** A log that lacks the message of its one tag. *)
Definition log_without_message : ElementLog :=
  {| elements := [("folder", [leaf "folder" [] 3])]; title := "T"; msgs := [] |}.

(** Every [folder], [file] and [image] element of the tree has the
    attribute its rule reads, and what the attribute names exists. *)
Definition all_present (host : Host) (package_path : string) (root : Element) : Prop :=
  forall e, In e (iter root) ->
    (tag e = "folder" ->
     exists s, get e "source" = Some s /\ isdir host (join host package_path s) = true) /\
    (tag e = "file" ->
     exists s, get e "source" = Some s /\ isfile host (join host package_path s) = true) /\
    (tag e = "image" ->
     exists s, get e "path" = Some s /\ isfile host (join host package_path s) = true).

(** * Properties *)

(** ** The monad *)

Lemma bind_outcome {A B} (m : M A) (k : A -> M B) :
  outcome (bind m k) =
  match outcome m with
  | OK a => outcome (k a)
  | Raise e => Raise e
  end.
Proof.
  destruct m as [l [a | e]]; simpl; [destruct (k a) |]; reflexivity.
Qed.

Lemma bind_trace {A B} (m : M A) (k : A -> M B) :
  trace (bind m k) =
  (trace m ++ match outcome m with
              | OK a => trace (k a)
              | Raise _ => []
              end)%list.
Proof.
  destruct m as [l [a | e]]; simpl; [destruct (k a) | rewrite app_nil_r]; reflexivity.
Qed.

Lemma bind_ok {A B} (m : M A) (k : A -> M B) l a :
  m = (l, OK a) -> bind m k = ((l ++ trace (k a))%list, outcome (k a)).
Proof. intros ->. simpl. destruct (k a); reflexivity. Qed.

Lemma bind_raise {A B} (m : M A) (k : A -> M B) l e :
  m = (l, Raise e) -> bind m k = (l, Raise e).
Proof. intros ->. reflexivity. Qed.

Lemma M_eta {A} (m : M A) : m = (trace m, outcome m).
Proof. destruct m; reflexivity. Qed.

(** ** The loop of _WarningElement *)

(** The arity test of line 86 fails whatever the condition. *)
Lemma arity_test_false condition : mapping_eq_int (parameters condition) 2 = false.
Proof. reflexivity. Qed.

Lemma evaluate_Lambda2 body tag_list e rest acc :
  evaluate (Lambda2 body) tag_list (e :: rest) acc = ([Invoke e None], Raise TypeError).
Proof. reflexivity. Qed.

Lemma evaluate_Lambda1 body tag_list rest : forall acc,
  evaluate (Lambda1 body) tag_list rest acc =
  (map (fun e => Invoke e None) (evaluated body rest),
   match first_error body rest with
   | Some ex => Raise ex
   | None => OK (acc ++ filter (fun e => returns_true (body e)) rest)%list
   end).
Proof.
  induction rest as [| e rest IH]; intros acc; simpl.
  - rewrite app_nil_r. reflexivity.
  - unfold call1, tell, lift. simpl.
    destruct (body e) as [b | ex]; simpl.
    + rewrite IH. simpl.
      destruct (first_error body rest); [reflexivity |].
      destruct b; simpl; [rewrite <- app_assoc |]; reflexivity.
    + reflexivity.
Qed.

Lemma call1_Lambda1 body e : outcome (call1 (Lambda1 body) e) = body e.
Proof. reflexivity. Qed.

Lemma call1_Lambda2 body e : call1 (Lambda2 body) e = ([Invoke e None], Raise TypeError).
Proof. reflexivity. Qed.

Lemma WarningElement_Lambda1 root tags title msg body :
  _WarningElement root tags title msg (Lambda1 body) =
  (map (fun e => Invoke e None) (evaluated body (matched tags root)),
   match first_error body (matched tags root) with
   | Some ex => Raise ex
   | None => OK {| tag_log := finding (flagged (Lambda1 body) tags root) title msg |}
   end).
Proof.
  unfold _WarningElement. fold (matched tags root).
  rewrite evaluate_Lambda1. simpl.
  destruct (first_error body (matched tags root)); simpl.
  - reflexivity.
  - rewrite app_nil_r. unfold flagged.
    reflexivity.
Qed.

Lemma WarningElement_Lambda2 root tags title msg body :
  _WarningElement root tags title msg (Lambda2 body) =
  match matched tags root with
  | [] => ([], OK {| tag_log := None |})
  | e :: _ => ([Invoke e None], Raise TypeError)
  end.
Proof.
  unfold _WarningElement. fold (matched tags root).
  destruct (matched tags root); reflexivity.
Qed.

(** Both shapes of condition at once: the loop stops at the first element
    on which [condition(elem)] raises, and otherwise keeps the elements on
    which it returns true. *)
Lemma WarningElement_run root tags title msg condition :
  _WarningElement root tags title msg condition =
  (map (fun e => Invoke e None)
       (evaluated (fun e => outcome (call1 condition e)) (matched tags root)),
   match first_error (fun e => outcome (call1 condition e)) (matched tags root) with
   | Some ex => Raise ex
   | None => OK {| tag_log := finding (flagged condition tags root) title msg |}
   end).
Proof.
  destruct condition as [body | body].
  - apply WarningElement_Lambda1.
  - rewrite WarningElement_Lambda2. unfold flagged.
    destruct (matched tags root); reflexivity.
Qed.

Lemma first_error_In body l e ex :
  In e l -> body e = Raise ex -> exists ex', first_error body l = Some ex'.
Proof.
  induction l as [| a l IH]; simpl; [tauto |].
  intros [-> | Hin] He.
  - rewrite He. eauto.
  - destruct (body a); eauto.
Qed.

Lemma first_error_sound body l ex :
  first_error body l = Some ex -> exists e, In e l /\ body e = Raise ex.
Proof.
  induction l as [| a l IH]; simpl; [discriminate |].
  destruct (body a) eqn:Ha.
  - intros H. destruct (IH H) as (e & Hin & He). eauto.
  - intros [= <-]. eauto.
Qed.

(** ** The four rules *)

Section Rules.
Variable host : Host.
Variable package_path : string.

Lemma join_attr_error v ex : join_attr host package_path v = Raise ex -> ex = TypeError.
Proof. destruct v; simpl; congruence. Qed.

(** A condition of a rule raises nothing but TypeError. *)
Lemma rule_raises_TypeError tags title msg condition e ex :
  In (tags, title, msg, condition) (rules host package_path) ->
  outcome (call1 condition e) = Raise ex -> ex = TypeError.
Proof.
  unfold rules. simpl.
  intros [H | [H | [H | [H | []]]]]; inversion H; subst; clear H; simpl.
  - congruence.
  - destruct (join_attr host package_path (get e "source")) eqn:E; [discriminate |].
    intros [= <-]. eapply join_attr_error; eauto.
  - destruct (join_attr host package_path (get e "source")) eqn:E; [discriminate |].
    intros [= <-]. eapply join_attr_error; eauto.
  - destruct (join_attr host package_path (get e "path")) eqn:E; [discriminate |].
    intros [= <-]. eapply join_attr_error; eauto.
Qed.

Lemma element_list_outcome root :
  outcome (element_list host package_path root) = rule_results root (rules host package_path).
Proof.
  unfold element_list, rules, rule_results, rule_result.
  repeat (rewrite bind_outcome, WarningElement_run; simpl outcome;
          match goal with
          | |- context [first_error ?b ?l] => destruct (first_error b l); [reflexivity |]
          end).
  reflexivity.
Qed.

Lemma rule_results_error root rs ex :
  rule_results root rs = Raise ex ->
  exists tags title msg condition e,
    In (tags, title, msg, condition) rs /\ In e (matched tags root) /\
    outcome (call1 condition e) = Raise ex.
Proof.
  induction rs as [| [[[tags title] msg] condition] rs IH]; simpl; [discriminate |].
  destruct (first_error _ (matched tags root)) as [ex' |] eqn:E.
  - intros [= <-]. apply first_error_sound in E. destruct E as (e & Hin & He).
    exists tags, title, msg, condition, e. auto.
  - destruct (rule_results root rs) eqn:R; [discriminate |].
    intros [= <-]. destruct (IH eq_refl) as (t & ti & m & c & e0 & H1 & H2 & H3).
    exists t, ti, m, c, e0. auto.
Qed.

Lemma rule_results_ok root rs ws :
  rule_results root rs = OK ws ->
  ws = map (fun '(tags, title, msg, condition) =>
              {| tag_log := finding (flagged condition tags root) title msg |}) rs /\
  forall tags title msg condition,
    In (tags, title, msg, condition) rs ->
    first_error (fun e => outcome (call1 condition e)) (matched tags root) = None.
Proof.
  revert ws. induction rs as [| [[[tags title] msg] condition] rs IH]; simpl; intros ws.
  - intros [= <-]. split; [reflexivity | tauto].
  - destruct (first_error _ (matched tags root)) eqn:E; [discriminate |].
    destruct (rule_results root rs) as [ws' |] eqn:R; [| discriminate].
    intros [= <-]. destruct (IH ws' eq_refl) as [-> Hall]. split; [reflexivity |].
    intros t ti m c [H | H]; [inversion H; subst; exact E | eauto].
Qed.

(** A run of the rules raises nothing but TypeError. *)
Lemma element_list_error root ex :
  outcome (element_list host package_path root) = Raise ex -> ex = TypeError.
Proof.
  rewrite element_list_outcome. intros H.
  apply rule_results_error in H.
  destruct H as (tags & title & msg & c & e & Hin & _ & He).
  eapply rule_raises_TypeError; eauto.
Qed.

(** An element on which its rule's condition raises makes the rules raise. *)
Lemma element_list_aborts root tags title msg condition e ex :
  In (tags, title, msg, condition) (rules host package_path) ->
  In e (matched tags root) ->
  outcome (call1 condition e) = Raise ex ->
  outcome (element_list host package_path root) = Raise TypeError.
Proof.
  intros Hrule Hin He.
  destruct (outcome (element_list host package_path root)) as [ws | ex'] eqn:E.
  - rewrite element_list_outcome in E. apply rule_results_ok in E.
    destruct E as [_ Hall]. specialize (Hall _ _ _ _ Hrule).
    destruct (first_error_In (fun e => outcome (call1 condition e)) _ _ Hin He) as [ex' H'].
    congruence.
  - f_equal. eapply element_list_error; eauto.
Qed.

End Rules.

(** ** Where a run of the rules stops *)

Lemma evaluated_first_error body l ex :
  first_error body l = Some ex ->
  exists pre e, evaluated body l = (pre ++ [e])%list /\ In e l /\ body e = Raise ex.
Proof.
  induction l as [| a l IH]; simpl; [discriminate |].
  destruct (body a) eqn:Ha.
  - intros H. destruct (IH H) as (pre & e & Hev & Hin & He).
    exists (a :: pre), e. rewrite Hev. auto.
  - intros [= <-]. exists [], a. auto.
Qed.

Lemma element_list_trace_rules host package_path root :
  trace (element_list host package_path root) = rule_traces root (rules host package_path).
Proof.
  unfold element_list, rules, rule_traces.
  repeat (rewrite bind_trace, WarningElement_run; simpl trace; simpl outcome;
          f_equal;
          match goal with
          | |- context [first_error ?b ?l] => destruct (first_error b l); [reflexivity |]
          end).
  reflexivity.
Qed.

(** When the rules raise, the last call made is one that raised. *)
Lemma rule_traces_raise root rs ex :
  rule_results root rs = Raise ex ->
  exists pre tags heading msg condition e,
    In (tags, heading, msg, condition) rs /\ In e (matched tags root) /\
    outcome (call1 condition e) = Raise ex /\
    rule_traces root rs = (pre ++ [Invoke e None])%list.
Proof.
  induction rs as [| [[[tags heading] msg] condition] rs IH]; simpl; [discriminate |].
  destruct (first_error _ (matched tags root)) as [ex' |] eqn:E.
  - intros [= <-]. apply evaluated_first_error in E.
    destruct E as (pre & e & Hev & Hin & He).
    exists (map (fun e => Invoke e None) pre), tags, heading, msg, condition, e.
    rewrite Hev, map_app, app_nil_r. auto.
  - destruct (rule_results root rs) eqn:R; [discriminate |].
    intros [= <-].
    destruct (IH eq_refl) as (pre & t & ti & m & c & e0 & H1 & H2 & H3 & H4).
    eexists (_ ++ pre)%list, t, ti, m, c, e0.
    rewrite H4, app_assoc. auto.
Qed.

(** ** check_warnings, from the tree it settles on *)

Lemma check_warnings_validate host package_path elem_tree :
  check_warnings host package_path elem_tree =
  try_except (bind (config_root host package_path elem_tree) (validate host package_path))
             handler.
Proof. reflexivity. Qed.

Lemma check_warnings_located host package_path elem_tree l root :
  config_root host package_path elem_tree = (l, OK root) ->
  check_warnings host package_path elem_tree =
  try_except ((l ++ trace (validate host package_path root))%list,
              outcome (validate host package_path root)) handler.
Proof.
  intros H. rewrite check_warnings_validate. erewrite bind_ok by eassumption. reflexivity.
Qed.

Lemma check_warnings_not_located host package_path elem_tree l e :
  config_root host package_path elem_tree = (l, Raise e) ->
  check_warnings host package_path elem_tree = (l, Raise (handler e)).
Proof.
  intros H. rewrite check_warnings_validate. erewrite bind_raise by eassumption. reflexivity.
Qed.

Lemma validate_raise host package_path root l ex :
  element_list host package_path root = (l, Raise ex) ->
  validate host package_path root = (l, Raise ex).
Proof. intros H. unfold validate. erewrite bind_raise by eassumption. reflexivity. Qed.

Lemma validate_ok host package_path root l ws r :
  element_list host package_path root = (l, OK ws) ->
  _log_warnings (map tag_log ws) = OK r ->
  validate host package_path root =
  (l, if nonempty r then Raise (WarningError r) else OK tt).
Proof.
  intros H Hr. unfold validate. erewrite bind_ok by eassumption.
  rewrite Hr. simpl. destruct (nonempty r); simpl; rewrite app_nil_r; reflexivity.
Qed.

(** A tree with a child is the one that is validated, and no collaborator
    is called. *)
Lemma config_root_supplied host package_path t :
  truth (Some t) = true -> config_root host package_path (Some t) = ([], OK t).
Proof. unfold config_root. intros ->. reflexivity. Qed.

Lemma locate_fails host package_path e :
  location_fails host package_path e ->
  outcome (locate host package_path) = Raise e.
Proof.
  unfold locate, tell, lift.
  intros [H | (folder & Hf & [H | (file & Hc & H)])].
  - rewrite H. reflexivity.
  - rewrite Hf. simpl. rewrite H. reflexivity.
  - rewrite Hf. simpl. rewrite Hc. simpl. rewrite H. reflexivity.
Qed.

Lemma matched_In tags root e :
  In e (matched tags root) <-> In e (iter root) /\ tag_in (tag e) tags = true.
Proof. unfold matched. apply filter_In. Qed.

Lemma element_list_repeated host package_path root first rest :
  matched repeated_tags root = first :: rest ->
  element_list host package_path root = ([Invoke first None], Raise TypeError).
Proof.
  intros H. unfold element_list, repeated_condition.
  rewrite WarningElement_Lambda2, H. reflexivity.
Qed.

(** ** The arity test and the first rule *)

(** C10: when the tree that is validated holds an element whose tag is one
    of the Repeated Elements tags, [check_warnings] raises TypeError to its
    caller: the arity test being false, the two-parameter condition is
    called with one argument, on the first matched element, and nothing is
    evaluated after it. *)
Theorem C10_repeated_tag_raises_TypeError host package_path elem_tree l root e :
  config_root host package_path elem_tree = (l, OK root) ->
  In e (iter root) ->
  tag_in (tag e) repeated_tags = true ->
  mapping_eq_int (parameters repeated_condition) 2 = false /\
  exists first,
    hd_error (matched repeated_tags root) = Some first /\
    check_warnings host package_path elem_tree =
    ((l ++ [Invoke first None])%list, Raise TypeError).
Proof.
  intros Hroot Hin Htag. split; [reflexivity |].
  assert (Hm : In e (matched repeated_tags root)) by (apply matched_In; auto).
  destruct (matched repeated_tags root) as [| first rest] eqn:E; [destruct Hm |].
  exists first. split; [reflexivity |].
  rewrite (check_warnings_located _ _ _ Hroot).
  rewrite (validate_raise _ _ _ (element_list_repeated host package_path _ E)).
  reflexivity.
Qed.

Lemma C10_witness :
  config_root bare_host "pkg" (Some two_names) = ([], OK two_names) /\
  mapping_eq_int (parameters repeated_condition) 2 = false /\
  exists first,
    hd_error (matched repeated_tags two_names) = Some first /\
    check_warnings bare_host "pkg" (Some two_names) =
    (([] ++ [Invoke first None])%list, Raise TypeError).
Proof.
  split; [reflexivity |].
  apply (@C10_repeated_tag_raises_TypeError bare_host "pkg" (Some two_names) []
           two_names (leaf "moduleName" [] 4)).
  - reflexivity.
  - simpl. auto.
  - reflexivity.
Defined.

(** C1, at a tree with two [moduleName] elements: both are matched by the
    Repeated Elements rule and the two-argument call would flag both, yet
    the rule raises TypeError at the first of them and [check_warnings]
    ends with that TypeError, without a finding. *)
Theorem C1_two_moduleName_no_finding :
  matched repeated_tags two_names = [leaf "moduleName" [] 4; leaf "moduleName" [] 9] /\
  (forall e, In e (matched repeated_tags two_names) ->
     outcome (call2 repeated_condition e (matched repeated_tags two_names)) = OK true) /\
  outcome (_WarningElement two_names repeated_tags repeated_title repeated_msg
             repeated_condition) = Raise TypeError /\
  check_warnings bare_host "pkg" (Some two_names) =
  ([Invoke (leaf "moduleName" [] 4) None], Raise TypeError).
Proof.
  split; [reflexivity |]. split; [| split; reflexivity].
  intros e [<- | [<- | []]]; reflexivity.
Qed.

(** C2, at a tree with three elements matched by the Repeated Elements
    rule: the condition is called once, on the first element and without
    the matched sequence, where the claim has three calls that each carry
    the sequence. *)
Theorem C2_group_condition_called_once_without_group :
  let tag_list := matched repeated_tags three_special in
  let run := _WarningElement three_special repeated_tags repeated_title repeated_msg
               repeated_condition in
  tag_list = [leaf "moduleName" [] 2; leaf "installSteps" [] 3; leaf "moduleName" [] 7] /\
  trace run = [Invoke (leaf "moduleName" [] 2) None] /\
  trace run <> map (fun e => Invoke e (Some tag_list)) tag_list /\
  outcome run = Raise TypeError.
Proof.
  cbv zeta. repeat split; try reflexivity.
  vm_compute. discriminate.
Qed.

(** ** Which tree is validated *)

(** C6, at a root element without children, supplied as [elem_tree]: the
    test [not elem_tree] holds for it, so the collaborators are called and
    the supplied tree is not validated. *)
Theorem C6_childless_tree_not_used :
  truth (Some childless) = false /\
  check_warnings bare_host "pkg" (Some childless) =
  ([CheckFomod "pkg"], Raise (MissingFolderError "fomod")) /\
  validate bare_host "pkg" childless = ([], OK tt).
Proof. repeat split; reflexivity. Qed.

(** C9: without a pre-parsed tree, a MissingFolderError or a
    MissingFileError raised by a collaborator reaches the caller as it is,
    and a ParseError reaches it as a ParserError with the same message. *)
Theorem C9_location_errors_propagate host package_path e :
  location_fails host package_path e ->
  (forall m, e = MissingFolderError m ->
     outcome (check_warnings host package_path None) = Raise (MissingFolderError m)) /\
  (forall m, e = MissingFileError m ->
     outcome (check_warnings host package_path None) = Raise (MissingFileError m)) /\
  (forall m, e = ParseError m ->
     outcome (check_warnings host package_path None) = Raise (ParserError m)).
Proof.
  intros H. apply locate_fails in H.
  assert (Hc : outcome (check_warnings host package_path None) = Raise (handler e)).
  { rewrite (check_warnings_not_located host package_path None
               (l := trace (locate host package_path)) (e := e)); [reflexivity |].
    simpl. rewrite <- H. apply M_eta. }
  repeat split; intros m ->; exact Hc.
Qed.

Lemma C9_witness :
  (location_fails bare_host "pkg" (MissingFolderError "fomod") /\
   outcome (check_warnings bare_host "pkg" None) = Raise (MissingFolderError "fomod")) /\
  (location_fails no_file_host "pkg" (MissingFileError "ModuleConfig.xml") /\
   outcome (check_warnings no_file_host "pkg" None) =
   Raise (MissingFileError "ModuleConfig.xml")) /\
  (location_fails bad_xml_host "pkg"
     (ParseError "Premature end of data in tag config line 1") /\
   outcome (check_warnings bad_xml_host "pkg" None) =
   Raise (ParserError "Premature end of data in tag config line 1")).
Proof.
  assert (H1 : location_fails bare_host "pkg" (MissingFolderError "fomod"))
    by (left; reflexivity).
  assert (H2 : location_fails no_file_host "pkg" (MissingFileError "ModuleConfig.xml"))
    by (right; exists "fomod"; split; [reflexivity | left; reflexivity]).
  assert (H3 : location_fails bad_xml_host "pkg"
                 (ParseError "Premature end of data in tag config line 1"))
    by (right; exists "fomod"; split; [reflexivity |];
        right; exists "ModuleConfig.xml"; split; reflexivity).
  split; [| split].
  - split; [exact H1 |].
    exact (proj1 (C9_location_errors_propagate H1) "fomod" eq_refl).
  - split; [exact H2 |].
    exact (proj1 (proj2 (C9_location_errors_propagate H2)) "ModuleConfig.xml" eq_refl).
  - split; [exact H3 |].
    exact (proj2 (proj2 (C9_location_errors_propagate H3)) _ eq_refl).
Defined.

Lemma check_warnings_aborts host package_path elem_tree l root ex :
  config_root host package_path elem_tree = (l, OK root) ->
  outcome (element_list host package_path root) = Raise ex ->
  outcome (check_warnings host package_path elem_tree) = Raise (handler ex).
Proof.
  intros Hroot He. rewrite (check_warnings_located _ _ _ Hroot).
  rewrite (validate_raise host package_path root
             (l := trace (element_list host package_path root)) (ex := ex)).
  - reflexivity.
  - rewrite <- He. apply M_eta.
Qed.

Lemma check_warnings_rendered host package_path elem_tree l root ws r :
  config_root host package_path elem_tree = (l, OK root) ->
  outcome (element_list host package_path root) = OK ws ->
  _log_warnings (map tag_log ws) = OK r ->
  check_warnings host package_path elem_tree =
  ((l ++ trace (element_list host package_path root))%list,
   if nonempty r then Raise (WarningError r) else OK tt).
Proof.
  intros Hroot Hws Hr. rewrite (check_warnings_located _ _ _ Hroot).
  assert (Hl : element_list host package_path root =
               (trace (element_list host package_path root), OK ws))
    by (rewrite <- Hws; apply M_eta).
  rewrite (validate_ok host package_path root Hl Hr).
  destruct (nonempty r); reflexivity.
Qed.

(** ** The outcome of a run *)

(** C5: in a run that gets to the rendering, with [r] the rendered report,
    [check_warnings] raises WarningError exactly when [r] is not empty, with
    [r] as the payload, and returns exactly when [r] is empty. *)
Theorem C5_raises_iff_report_nonempty host package_path elem_tree root ws r :
  outcome (config_root host package_path elem_tree) = OK root ->
  outcome (element_list host package_path root) = OK ws ->
  _log_warnings (map tag_log ws) = OK r ->
  (outcome (check_warnings host package_path elem_tree) = Raise (WarningError r)
   <-> r <> "") /\
  (outcome (check_warnings host package_path elem_tree) = OK tt <-> r = "") /\
  (forall payload,
     outcome (check_warnings host package_path elem_tree) = Raise (WarningError payload) ->
     payload = r).
Proof.
  intros Hroot Hws Hr.
  assert (Hc : config_root host package_path elem_tree =
               (trace (config_root host package_path elem_tree), OK root))
    by (rewrite <- Hroot; apply M_eta).
  rewrite (check_warnings_rendered host package_path elem_tree Hc Hws Hr).
  destruct r as [| c r]; simpl.
  - repeat split; try congruence; discriminate.
  - repeat split; try congruence; try discriminate.
Qed.

Lemma C5_witness :
  let r := report_of bare_host "pkg" some_missing in
  r <> "" /\
  (outcome (check_warnings bare_host "pkg" (Some some_missing)) = Raise (WarningError r)
   <-> r <> "") /\
  (outcome (check_warnings bare_host "pkg" (Some some_missing)) = OK tt <-> r = "") /\
  (forall payload,
     outcome (check_warnings bare_host "pkg" (Some some_missing)) =
     Raise (WarningError payload) -> payload = r).
Proof.
  split; [vm_compute; discriminate |].
  apply (@C5_raises_iff_report_nonempty bare_host "pkg" (Some some_missing) some_missing
           (logs_of bare_host "pkg" some_missing)); reflexivity.
Defined.

Lemma matched_nil tags root :
  (forall e, In e (iter root) -> tag_in (tag e) tags = false) -> matched tags root = [].
Proof.
  intros H. unfold matched.
  induction (iter root) as [| a l IH]; simpl; [reflexivity |].
  rewrite (H a (or_introl eq_refl)). apply IH. intros e He. apply H. right. exact He.
Qed.

Lemma tag_in_app t a b : tag_in t (a ++ b) = orb (tag_in t a) (tag_in t b).
Proof. apply existsb_app. Qed.

(** C7: when no element of the validated tree has a tag of any rule,
    [check_warnings] returns, calling no predicate; every rule stores no
    log and the rendered text is empty. *)
Theorem C7_no_matching_element_no_report host package_path elem_tree l root :
  config_root host package_path elem_tree = (l, OK root) ->
  (forall e, In e (iter root) ->
     tag_in (tag e) (repeated_tags ++ folder_tags ++ file_tags ++ image_tags) = false) ->
  check_warnings host package_path elem_tree = (l, OK tt) /\
  exists ws,
    element_list host package_path root = ([], OK ws) /\
    Forall (fun w => tag_log w = None) ws /\
    _log_warnings (map tag_log ws) = OK "".
Proof.
  intros Hroot Hnone.
  assert (H1 : matched repeated_tags root = []).
  { apply matched_nil. intros e He. specialize (Hnone e He).
    rewrite !tag_in_app in Hnone. apply orb_false_iff in Hnone. tauto. }
  assert (H2 : matched folder_tags root = []).
  { apply matched_nil. intros e He. specialize (Hnone e He).
    rewrite !tag_in_app, !orb_false_iff in Hnone. tauto. }
  assert (H3 : matched file_tags root = []).
  { apply matched_nil. intros e He. specialize (Hnone e He).
    rewrite !tag_in_app, !orb_false_iff in Hnone. tauto. }
  assert (H4 : matched image_tags root = []).
  { apply matched_nil. intros e He. specialize (Hnone e He).
    rewrite !tag_in_app, !orb_false_iff in Hnone. tauto. }
  assert (Hl : element_list host package_path root =
               ([], OK (map (fun _ => {| tag_log := None |}) (rules host package_path)))).
  { unfold element_list. rewrite !WarningElement_run. unfold flagged.
    rewrite H1, H2, H3, H4. reflexivity. }
  split.
  - rewrite (check_warnings_located _ _ _ Hroot).
    rewrite (validate_ok host package_path root (r := "") Hl eq_refl).
    simpl. rewrite app_nil_r. reflexivity.
  - eexists. split; [exact Hl |]. split; [| reflexivity].
    repeat constructor.
Qed.

Lemma C7_witness :
  config_root clean_host "pkg" (Some plain_tree) = ([], OK plain_tree) /\
  check_warnings clean_host "pkg" (Some plain_tree) = ([], OK tt) /\
  exists ws,
    element_list clean_host "pkg" plain_tree = ([], OK ws) /\
    Forall (fun w => tag_log w = None) ws /\
    _log_warnings (map tag_log ws) = OK "".
Proof.
  split; [reflexivity |].
  apply (@C7_no_matching_element_no_report clean_host "pkg" (Some plain_tree) [] plain_tree).
  - reflexivity.
  - simpl. intros e [<- | [<- | [<- | []]]]; reflexivity.
Defined.

(** ** Exceptions raised by a condition *)

Lemma tag_in_one t a : tag_in t [a] = true -> t = a.
Proof.
  unfold tag_in. simpl. rewrite orb_false_r. apply String.eqb_eq.
Qed.

Lemma tag_in_two t a b : tag_in t [a; b] = true -> t = a \/ t = b.
Proof.
  unfold tag_in. simpl. rewrite orb_false_r. intros H.
  apply orb_true_iff in H. rewrite !String.eqb_eq in H. exact H.
Qed.

Lemma lacks_attribute_rule host package_path e :
  lacks_attribute e ->
  exists tags title msg condition,
    In (tags, title, msg, condition) (filesystem_rules host package_path) /\
    tag_in (tag e) tags = true /\
    outcome (call1 condition e) = Raise TypeError.
Proof.
  intros [[[Ht | Ht] Hg] | [[Ht | Ht] Hg]].
  - exists folder_tags, folder_title, folder_msg, (folder_condition host package_path).
    split; [simpl; auto |]. split; [rewrite Ht; reflexivity |].
    simpl. rewrite Hg. reflexivity.
  - exists file_tags, file_title, file_msg, (file_condition host package_path).
    split; [simpl; auto |]. split; [rewrite Ht; reflexivity |].
    simpl. rewrite Hg. reflexivity.
  - exists image_tags, image_title, image_msg, (image_condition host package_path).
    split; [simpl; auto |]. split; [rewrite Ht; reflexivity |].
    simpl. rewrite Hg. reflexivity.
  - exists image_tags, image_title, image_msg, (image_condition host package_path).
    split; [simpl; auto |]. split; [rewrite Ht; reflexivity |].
    simpl. rewrite Hg. reflexivity.
Qed.

(** C3, as the code has it: on a [folder], [file], [moduleImage] or [image]
    element without the attribute that its file-system rule reads, the
    condition of that rule raises TypeError, and [check_warnings] on a tree
    that holds such an element raises TypeError to its caller. *)
Theorem C3_missing_attribute_raises_TypeError host package_path elem_tree l root e :
  config_root host package_path elem_tree = (l, OK root) ->
  In e (iter root) ->
  lacks_attribute e ->
  (forall tags title msg condition,
     In (tags, title, msg, condition) (filesystem_rules host package_path) ->
     tag_in (tag e) tags = true ->
     outcome (call1 condition e) = Raise TypeError) /\
  outcome (check_warnings host package_path elem_tree) = Raise TypeError.
Proof.
  intros Hroot Hin Hlack. split.
  - intros tags title msg condition Hrule Htag.
    unfold filesystem_rules in Hrule. simpl in Hrule.
    destruct Hrule as [H | [H | [H | []]]]; inversion H; subst; clear H; simpl.
    + apply tag_in_one in Htag.
      destruct Hlack as [[_ Hg] | [[Ht | Ht] _]]; [rewrite Hg; reflexivity | | ];
        rewrite Htag in Ht; discriminate.
    + apply tag_in_one in Htag.
      destruct Hlack as [[_ Hg] | [[Ht | Ht] _]]; [rewrite Hg; reflexivity | | ];
        rewrite Htag in Ht; discriminate.
    + apply tag_in_two in Htag.
      destruct Hlack as [[[Ht | Ht] _] | [_ Hg]]; [ | | rewrite Hg; reflexivity];
        destruct Htag as [Htag | Htag]; rewrite Htag in Ht; discriminate.
  - destruct (lacks_attribute_rule host package_path Hlack)
      as (tags & title & msg & condition & Hrule & Htag & Hcall).
    change TypeError with (handler TypeError).
    apply (check_warnings_aborts host package_path elem_tree Hroot).
    apply (@element_list_aborts host package_path root tags title msg condition e TypeError).
    + unfold filesystem_rules in Hrule. right. exact Hrule.
    + apply matched_In. auto.
    + exact Hcall.
Qed.

Lemma C3_witness :
  lacks_attribute (leaf "image" [] 5) /\
  (forall tags title msg condition,
     In (tags, title, msg, condition) (filesystem_rules bare_host "pkg") ->
     tag_in (tag (leaf "image" [] 5)) tags = true ->
     outcome (call1 condition (leaf "image" [] 5)) = Raise TypeError) /\
  outcome (check_warnings bare_host "pkg" (Some image_without_path)) = Raise TypeError.
Proof.
  assert (H : lacks_attribute (leaf "image" [] 5))
    by (right; split; [right |]; reflexivity).
  split; [exact H |].
  apply (@C3_missing_attribute_raises_TypeError bare_host "pkg" (Some image_without_path)
           [] image_without_path (leaf "image" [] 5)).
  - reflexivity.
  - simpl. auto.
  - exact H.
Defined.

(** The claim C3 fails at a tree with one [image] that has no [path]: the
    condition of the Missing Images rule does not return true on it, and
    [check_warnings] ends with a TypeError. *)
Lemma C3_counterexample :
  In (leaf "image" [] 5) (matched image_tags image_without_path) /\
  get (leaf "image" [] 5) "path" = None /\
  outcome (call1 (image_condition bare_host "pkg") (leaf "image" [] 5)) <> OK true /\
  check_warnings bare_host "pkg" (Some image_without_path) =
  ([Invoke (leaf "image" [] 5) None], Raise TypeError).
Proof.
  split; [simpl; auto |]. split; [reflexivity |]. split; [| reflexivity].
  simpl. discriminate.
Qed.

(** C4, as the code has it: when the condition of a rule raises on an
    element the rule matches, [check_warnings] ends with that exception,
    which reaches the caller; the last call the run makes is a call of a
    condition that raises, so that no element and no rule after it is
    evaluated. *)
Theorem C4_condition_exception_aborts host package_path elem_tree l root
    tags heading msg condition e ex :
  config_root host package_path elem_tree = (l, OK root) ->
  In (tags, heading, msg, condition) (rules host package_path) ->
  In e (matched tags root) ->
  outcome (call1 condition e) = Raise ex ->
  outcome (check_warnings host package_path elem_tree) = Raise ex /\
  exists pre tags' heading' msg' condition' e',
    In (tags', heading', msg', condition') (rules host package_path) /\
    In e' (matched tags' root) /\
    outcome (call1 condition' e') = Raise ex /\
    trace (check_warnings host package_path elem_tree) =
    (l ++ pre ++ [Invoke e' None])%list.
Proof.
  intros Hroot Hrule Hin Hcall.
  assert (ex = TypeError) by (eapply rule_raises_TypeError; eauto). subst ex.
  assert (Hl : outcome (element_list host package_path root) = Raise TypeError)
    by (eapply element_list_aborts; eauto).
  split.
  - change (Raise TypeError) with (Raise (A := unit) (handler TypeError)).
    apply (check_warnings_aborts host package_path elem_tree Hroot Hl).
  - pose proof Hl as Hr. rewrite element_list_outcome in Hr.
    apply rule_traces_raise in Hr.
    destruct Hr as (pre & t & ti & m & c & e' & H1 & H2 & H3 & H4).
    exists pre, t, ti, m, c, e'. repeat (split; [assumption |]).
    rewrite (check_warnings_located _ _ _ Hroot).
    rewrite (validate_raise host package_path root
               (l := trace (element_list host package_path root)) (ex := TypeError))
      by (rewrite <- Hl; apply M_eta).
    simpl. rewrite element_list_trace_rules, H4. reflexivity.
Qed.

Lemma C4_witness :
  In (leaf "folder" [] 3) (matched folder_tags folder_without_source) /\
  outcome (call1 (folder_condition bare_host "pkg") (leaf "folder" [] 3)) = Raise TypeError /\
  outcome (check_warnings bare_host "pkg" (Some folder_without_source)) = Raise TypeError /\
  exists pre tags' heading' msg' condition' e',
    In (tags', heading', msg', condition') (rules bare_host "pkg") /\
    In e' (matched tags' folder_without_source) /\
    outcome (call1 condition' e') = Raise TypeError /\
    trace (check_warnings bare_host "pkg" (Some folder_without_source)) =
    ([] ++ pre ++ [Invoke e' None])%list.
Proof.
  split; [simpl; auto |]. split; [reflexivity |].
  apply (@C4_condition_exception_aborts bare_host "pkg" (Some folder_without_source) []
           folder_without_source folder_tags folder_title folder_msg
           (folder_condition bare_host "pkg") (leaf "folder" [] 3) TypeError).
  - reflexivity.
  - simpl. auto.
  - simpl. auto.
  - reflexivity.
Defined.

(** The claim C4 fails at a tree whose first [folder] has no [source] and
    whose second names a folder that is missing: the condition raises on
    the first, the second is never evaluated, and the run ends with the
    TypeError where the claim has a report that lists line 4. *)
Lemma C4_counterexample :
  matched folder_tags folder_without_source =
  [leaf "folder" [] 3; leaf "folder" [("source", "meshes")] 4] /\
  outcome (call1 (folder_condition bare_host "pkg") (leaf "folder" [] 3)) = Raise TypeError /\
  outcome (call1 (folder_condition bare_host "pkg")
             (leaf "folder" [("source", "meshes")] 4)) = OK true /\
  trace (check_warnings bare_host "pkg" (Some folder_without_source)) =
  [Invoke (leaf "folder" [] 3) None] /\
  outcome (check_warnings bare_host "pkg" (Some folder_without_source)) = Raise TypeError.
Proof. repeat split; reflexivity. Qed.

(** ** Tags in first-seen order *)

Lemma first_seen_In l t : In t (first_seen l) <-> In t l.
Proof.
  induction l as [| a l IH]; simpl; [tauto |].
  rewrite filter_In, IH, negb_true_iff, String.eqb_neq.
  destruct (String.string_dec t a) as [-> | Hne]; [tauto |].
  split; [tauto |]. intros [H | H]; [congruence | auto].
Qed.

Lemma first_seen_NoDup l : NoDup (first_seen l).
Proof.
  induction l as [| a l IH]; simpl; constructor.
  - rewrite filter_In, String.eqb_refl. simpl. intros [_ H]. discriminate.
  - apply NoDup_filter. exact IH.
Qed.

Lemma first_seen_snoc l t :
  first_seen (l ++ [t]) =
  if existsb (String.eqb t) l then first_seen l else (first_seen l ++ [t])%list.
Proof.
  induction l as [| a l IH]; simpl; [reflexivity |].
  rewrite IH. destruct (String.eqb_spec t a) as [-> | Hne]; simpl.
  - destruct (existsb (String.eqb a) l); [reflexivity |].
    rewrite filter_app. simpl. rewrite String.eqb_refl. simpl.
    rewrite app_nil_r. reflexivity.
  - destruct (existsb (String.eqb t) l); [reflexivity |].
    rewrite filter_app. simpl.
    apply String.eqb_neq in Hne. rewrite Hne. reflexivity.
Qed.

Lemma existsb_eqb_In t l : existsb (String.eqb t) l = true <-> In t l.
Proof.
  rewrite existsb_exists. split.
  - intros (x & Hx & He). apply String.eqb_eq in He. subst. exact Hx.
  - intros H. exists t. split; [exact H | apply String.eqb_refl].
Qed.

Lemma existsb_first_seen t l :
  existsb (String.eqb t) (first_seen l) = existsb (String.eqb t) l.
Proof.
  apply eq_true_iff_eq. rewrite !existsb_eqb_In. apply first_seen_In.
Qed.

Lemma first_seen_constant l t :
  l <> [] -> (forall u, In u l -> u = t) -> first_seen l = [t].
Proof.
  induction l as [| a l IH]; [congruence |]. intros _ H. simpl.
  rewrite (H a (or_introl eq_refl)).
  destruct l as [| b l]; [reflexivity |].
  rewrite IH; [| discriminate | intros u Hu; apply H; right; exact Hu].
  simpl. rewrite String.eqb_refl. reflexivity.
Qed.

(** ** Dictionaries tabulated over a list of keys *)

Section Tabulate.
Variable V : Type.
Variable g : string -> V.

Lemma keys_tabulate ks : Dict.keys (map (fun t => (t, g t)) ks) = ks.
Proof. unfold Dict.keys. rewrite map_map. simpl. apply map_id. Qed.

Lemma get_tabulate ks k : In k ks -> Dict.get (map (fun t => (t, g t)) ks) k = Some (g k).
Proof.
  induction ks as [| a ks IH]; simpl; [tauto |].
  destruct (String.eqb_spec a k) as [-> | Hne]; [reflexivity |].
  intros [H | H]; [congruence | auto].
Qed.

Lemma set_tabulate_new ks k v :
  ~ In k ks ->
  Dict.set (map (fun t => (t, g t)) ks) k v = (map (fun t => (t, g t)) ks ++ [(k, v)])%list.
Proof.
  induction ks as [| a ks IH]; simpl; [reflexivity |].
  intros H. destruct (String.eqb_spec a k) as [-> | Hne]; [tauto |].
  rewrite IH by tauto. reflexivity.
Qed.

Lemma set_tabulate_old ks k v :
  In k ks -> NoDup ks ->
  Dict.set (map (fun t => (t, g t)) ks) k v =
  map (fun t => (t, if String.eqb t k then v else g t)) ks.
Proof.
  induction ks as [| a ks IH]; simpl; [tauto |].
  intros Hin Hnd. inversion Hnd as [| ? ? Hna Hnd']; subst.
  destruct (String.eqb_spec a k) as [-> | Hne].
  - f_equal. apply map_ext_in. intros t Ht.
    destruct (String.eqb_spec t k) as [-> | _]; [tauto | reflexivity].
  - f_equal. apply IH; [| exact Hnd']. destruct Hin; [congruence | assumption].
Qed.

End Tabulate.

(** ** _ElementLog groups by tag *)

Lemma with_tag_snoc t p e :
  with_tag t (p ++ [e]) =
  (with_tag t p ++ if String.eqb (tag e) t then [e] else [])%list.
Proof.
  unfold with_tag. rewrite filter_app. simpl.
  destruct (String.eqb (tag e) t); reflexivity.
Qed.

Lemma with_tag_nil t p : ~ In t (map tag p) -> with_tag t p = [].
Proof.
  unfold with_tag. induction p as [| a p IH]; simpl; [reflexivity |].
  intros H. destruct (String.eqb_spec (tag a) t) as [E | _]; tauto.
Qed.

Lemma with_tag_nonempty t p : In t (map tag p) -> with_tag t p <> [].
Proof.
  unfold with_tag. induction p as [| a p IH]; simpl; [tauto |].
  intros H. destruct (String.eqb_spec (tag a) t) as [E | Hne]; [discriminate |].
  destruct H; [congruence | auto].
Qed.

Lemma add_element_spec p e :
  add_element (spec_elements p) e = spec_elements (p ++ [e]).
Proof.
  unfold add_element, spec_elements, Dict.mem.
  rewrite keys_tabulate, existsb_first_seen, map_app. cbn [map].
  rewrite first_seen_snoc.
  destruct (existsb (String.eqb (tag e)) (map tag p)) eqn:E; simpl.
  - apply existsb_eqb_In in E.
    rewrite get_tabulate by (apply first_seen_In; exact E).
    rewrite set_tabulate_old
      by (try apply first_seen_NoDup; apply first_seen_In; exact E).
    apply map_ext. intros t. rewrite with_tag_snoc.
    rewrite (String.eqb_sym (tag e) t).
    destruct (String.eqb_spec t (tag e)) as [-> | _];
      [| rewrite app_nil_r]; reflexivity.
  - assert (Hn : ~ In (tag e) (map tag p)).
    { intros H. apply existsb_eqb_In in H. congruence. }
    rewrite set_tabulate_new by (rewrite first_seen_In; exact Hn).
    rewrite map_app. simpl. rewrite with_tag_snoc, String.eqb_refl.
    rewrite (with_tag_nil _ _ Hn). simpl. f_equal.
    apply map_ext_in. intros t Ht. rewrite with_tag_snoc.
    destruct (String.eqb_spec (tag e) t) as [<- | _];
      [rewrite first_seen_In in Ht; tauto | rewrite app_nil_r; reflexivity].
Qed.

Lemma add_msg_spec msg p e :
  add_msg msg (spec_msgs msg p) e = spec_msgs msg (p ++ [e]).
Proof.
  unfold add_msg, spec_msgs.
  rewrite map_app. cbn [map]. rewrite first_seen_snoc.
  destruct (existsb (String.eqb (tag e)) (map tag p)) eqn:E; simpl.
  - apply existsb_eqb_In in E.
    rewrite set_tabulate_old
      by (try apply first_seen_NoDup; apply first_seen_In; exact E).
    apply map_ext. intros t.
    destruct (String.eqb_spec t (tag e)) as [-> | _]; reflexivity.
  - assert (Hn : ~ In (tag e) (map tag p)).
    { intros H. apply existsb_eqb_In in H. congruence. }
    rewrite set_tabulate_new by (rewrite first_seen_In; exact Hn).
    rewrite map_app. reflexivity.
Qed.

Lemma fold_add_element p : forall q,
  fold_left add_element q (spec_elements p) = spec_elements (p ++ q).
Proof.
  intros q. revert p. induction q as [| e q IH]; intros p; simpl.
  - rewrite app_nil_r. reflexivity.
  - rewrite add_element_spec, IH, <- app_assoc. reflexivity.
Qed.

Lemma fold_add_msg msg p : forall q,
  fold_left (add_msg msg) q (spec_msgs msg p) = spec_msgs msg (p ++ q).
Proof.
  intros q. revert p. induction q as [| e q IH]; intros p; simpl.
  - rewrite app_nil_r. reflexivity.
  - rewrite add_msg_spec, IH, <- app_assoc. reflexivity.
Qed.

(** The log of a sequence of elements: its tags in first-seen order, each
    with its elements in the order of the sequence, and one message a tag. *)
Lemma ElementLog_spec elems title msg :
  _ElementLog elems title msg =
  {| elements := spec_elements elems; title := title; msgs := spec_msgs msg elems |}.
Proof.
  unfold _ElementLog. f_equal.
  - apply (fold_add_element [] elems).
  - apply (fold_add_msg msg [] elems).
Qed.

(** ** Rendering *)

Lemma append_assoc (a b c : string) : (a ++ b) ++ c = a ++ b ++ c.
Proof. induction a as [| x a IH]; simpl; [| rewrite IH]; reflexivity. Qed.

Lemma append_nil_r (a : string) : a ++ "" = a.
Proof. induction a as [| x a IH]; simpl; [| rewrite IH]; reflexivity. Qed.

Lemma drop_last_snoc (s : string) (c : ascii) : drop_last (s ++ String c "") = s.
Proof.
  induction s as [| x s IH]; [reflexivity |].
  change (drop_last (String x (s ++ String c "")) = String x s).
  simpl drop_last. rewrite IH.
  destruct s; reflexivity.
Qed.

Ltac flatten_appends := repeat rewrite append_assoc; simpl; try reflexivity.

(** After its loop over a non-empty group and before the last comma is
    dropped, the text ends with the line numbers and that comma. *)
Lemma log_lines_nonempty es : forall e result,
  log_lines (e :: es) result = (result ++ " " ++ spec_lines (e :: es)) ++ ",".
Proof.
  induction es as [| e' es IH]; intros e result.
  - unfold spec_lines. simpl. flatten_appends.
  - change (log_lines (e :: e' :: es) result)
      with (log_lines (e' :: es) (result ++ " " ++ str (sourceline e) ++ ",")).
    rewrite IH.
    change (spec_lines (e :: e' :: es))
      with (str (sourceline e) ++ ", " ++ spec_lines (e' :: es)).
    flatten_appends.
Qed.

Lemma log_tags_spec title msg flagged ks : forall result,
  (forall t, In t ks -> In t (map tag flagged)) ->
  log_tags {| elements := spec_elements flagged; title := title;
              msgs := spec_msgs msg flagged |} ks result =
  OK (result ++ join_all (map (spec_group msg flagged) ks)).
Proof.
  induction ks as [| t ks IH]; intros result Hks.
  - simpl. rewrite append_nil_r. reflexivity.
  - assert (Ht : In t (map tag flagged)) by (apply Hks; left; reflexivity).
    cbn [log_tags elements msgs].
    unfold spec_elements at 1. rewrite get_tabulate by (apply first_seen_In; exact Ht).
    unfold spec_msgs at 1. rewrite get_tabulate by (apply first_seen_In; exact Ht).
    rewrite IH by (intros u Hu; apply Hks; right; exact Hu).
    f_equal. cbn [map join_all fold_right]. unfold spec_group at 2.
    destruct (with_tag t flagged) as [| e es] eqn:E;
      [exfalso; exact (with_tag_nonempty _ _ Ht E) |].
    rewrite log_lines_nonempty, drop_last_snoc.
    fold (join_all (map (spec_group msg flagged) ks)).
    flatten_appends.
Qed.

Lemma log_logs_spec fs : forall result,
  log_logs (map (fun '(title, msg, flagged) => finding flagged title msg) fs) result =
  OK (result ++ spec_report fs).
Proof.
  induction fs as [| [[heading msg] flagged] fs IH]; intros result.
  - simpl. rewrite append_nil_r. reflexivity.
  - unfold spec_report. cbn [map join_all fold_right].
    fold (spec_report fs).
    destruct flagged as [| e es].
    + cbn [finding log_logs spec_finding]. rewrite IH. reflexivity.
    + cbn [finding log_logs]. rewrite ElementLog_spec. cbn [elements title].
      unfold spec_elements at 2. rewrite keys_tabulate.
      rewrite log_tags_spec by (intros t Ht; apply first_seen_In; exact Ht).
      rewrite IH. f_equal. cbn [spec_finding]. flatten_appends.
Qed.

(** The text [_log_warnings] renders for the logs of any sequence of rules:
    the Findings in the order of the sequence, each with its tag groups in
    first-seen order and its line numbers in the order of the flagged
    elements. *)
Lemma log_warnings_spec fs :
  _log_warnings (map (fun '(title, msg, flagged) => finding flagged title msg) fs) =
  OK (spec_report fs).
Proof. unfold _log_warnings. rewrite log_logs_spec. reflexivity. Qed.

(** ** The order of the report *)

(** When every matched element has the same tag, the tags of the flagged
    ones in first-seen order are those of the matched ones in first-seen
    order that have a flagged element. *)
Lemma single_tag_order (p : Element -> bool) (l : list Element) (t : string) :
  (forall e, In e l -> tag e = t) ->
  first_seen (map tag (filter p l)) =
  filter (fun u => existsb (fun e => String.eqb (tag e) u) (filter p l))
         (first_seen (map tag l)).
Proof.
  intros Hall.
  destruct (filter p l) as [| e es] eqn:E.
  - simpl. induction (first_seen (map tag l)) as [| a ks IH]; simpl; auto.
  - assert (Hsub : forall x, In x (e :: es) -> In x l).
    { intros x Hx. rewrite <- E in Hx. apply filter_In in Hx. tauto. }
    assert (Hl : l <> []).
    { intros ->. exact (Hsub e (or_introl eq_refl)). }
    rewrite (@first_seen_constant (map tag l) t).
    + rewrite (@first_seen_constant (map tag (e :: es)) t).
      * cbn [filter existsb].
        rewrite (Hall e (Hsub e (or_introl eq_refl))), String.eqb_refl. reflexivity.
      * discriminate.
      * intros u Hu. apply in_map_iff in Hu. destruct Hu as (x & <- & Hx). auto.
    + destruct l; [congruence | discriminate].
    + intros u Hu. apply in_map_iff in Hu. destruct Hu as (x & <- & Hx). auto.
Qed.

(** In a run that gets past the first rule, that rule has matched nothing. *)
Lemma repeated_rule_passes root :
  first_error (fun e => outcome (call1 repeated_condition e)) (matched repeated_tags root)
  = None ->
  matched repeated_tags root = [].
Proof. destruct (matched repeated_tags root); [reflexivity | discriminate]. Qed.

(** C8: the report of a run that raises WarningError is the text of the
    Findings of the four rules, in the order in which the rules are
    declared; within a Finding the tag groups come in the order in which
    their tags are first seen among the flagged elements; within a tag
    group the line numbers come in the order the flagged elements have in
    the document.  Such a run has matched no tag of the first rule, every
    other rule then matches one tag, and so the order of the tag groups is
    also the order in which the tags were first matched. *)
Theorem C8_report_order host package_path elem_tree l root r :
  config_root host package_path elem_tree = (l, OK root) ->
  outcome (check_warnings host package_path elem_tree) = Raise (WarningError r) ->
  r = spec_report (findings_of host package_path root) /\
  map (fun f => fst (fst f)) (findings_of host package_path root) =
  [repeated_title; folder_title; file_title; image_title] /\
  forall tags title msg condition,
    In (tags, title, msg, condition) (rules host package_path) ->
    first_seen (map tag (flagged condition tags root)) =
    filter (fun t => existsb (fun e => String.eqb (tag e) t) (flagged condition tags root))
           (first_seen (map tag (matched tags root))).
Proof.
  intros Hroot Hr.
  destruct (outcome (element_list host package_path root)) as [ws | ex] eqn:E.
  - pose proof E as E'. rewrite element_list_outcome in E'.
    apply rule_results_ok in E'. destruct E' as [Hws Hnone].
    split; [| split; [reflexivity |]].
    + assert (Hlog : _log_warnings (map tag_log ws) =
                     OK (spec_report (findings_of host package_path root))).
      { rewrite Hws. exact (log_warnings_spec (findings_of host package_path root)). }
      rewrite (check_warnings_rendered host package_path elem_tree Hroot E Hlog) in Hr.
      simpl in Hr. destruct (nonempty _); congruence.
    + assert (H1 : matched repeated_tags root = []).
      { apply repeated_rule_passes.
        apply (Hnone repeated_tags repeated_title repeated_msg). simpl. auto. }
      intros tags title msg condition Hrule. unfold flagged.
      simpl in Hrule.
      destruct Hrule as [H | [H | [H | [H | []]]]]; inversion H; subst; clear H.
      * rewrite H1. reflexivity.
      * apply single_tag_order with (t := "folder").
        intros e He. apply matched_In in He. apply tag_in_one. tauto.
      * apply single_tag_order with (t := "file").
        intros e He. apply matched_In in He. apply tag_in_one. tauto.
      * apply single_tag_order with (t := "image").
        intros e He. apply matched_In in He. destruct He as [Hin Ht].
        apply tag_in_two in Ht. destruct Ht as [Ht | Ht]; [| exact Ht].
        assert (Hm : In e (matched repeated_tags root)).
        { apply matched_In. split; [exact Hin | rewrite Ht; reflexivity]. }
        rewrite H1 in Hm. destruct Hm.
  - assert (ex = TypeError) by (eapply element_list_error; exact E). subst ex.
    apply (check_warnings_aborts host package_path elem_tree Hroot) in E.
    rewrite E in Hr. discriminate.
Qed.

Lemma C8_witness :
  let r := report_of bare_host "pkg" some_missing in
  outcome (check_warnings bare_host "pkg" (Some some_missing)) = Raise (WarningError r) /\
  r = spec_report (findings_of bare_host "pkg" some_missing) /\
  map (fun f => fst (fst f)) (findings_of bare_host "pkg" some_missing) =
  [repeated_title; folder_title; file_title; image_title] /\
  forall tags title msg condition,
    In (tags, title, msg, condition) (rules bare_host "pkg") ->
    first_seen (map tag (flagged condition tags some_missing)) =
    filter (fun t => existsb (fun e => String.eqb (tag e) t)
                       (flagged condition tags some_missing))
           (first_seen (map tag (matched tags some_missing))).
Proof.
  split; [reflexivity |].
  apply (@C8_report_order bare_host "pkg" (Some some_missing) [] some_missing);
    reflexivity.
Defined.

(** ** Sample runs *)

(** Folders on lines 4 and 7, a file on line 5 and an image on line 6 are
    missing; the sections follow the order of the rules. *)
Example some_missing_report :
  outcome (check_warnings bare_host "pkg" (Some some_missing)) =
  Raise (WarningError
    ("<i>Missing Source Folders</i><br><br>" ++
     "Lines 4, 7: These source folders weren't found inside the package. " ++
     "The installers ignore this so be sure to fix it.<br><br><br>" ++
     "<i>Missing Source Files</i><br><br>" ++
     "Lines 5: These source files weren't found inside the package. " ++
     "The installers ignore this so be sure to fix it.<br><br><br>" ++
     "<i>Missing Images</i><br><br>" ++
     "Lines 6: These images weren't found inside the package. " ++
     "The installers ignore this so be sure to fix it.<br><br><br>")).
Proof. reflexivity. Qed.

(** The renderer on a log of two [moduleName] elements, as the first rule
    would build it were its condition called with two arguments. *)
Example two_names_rendered :
  _log_warnings [finding (matched repeated_tags two_names) repeated_title repeated_msg] =
  OK ("<i>Repeated Elements</i><br><br>" ++
      "Lines 4, 9: The tag moduleName has several occurrences, " ++
      "this may produce unexpected results.<br><br><br>").
Proof. reflexivity. Qed.

(** Tag groups come in first-seen order, each with its own lines. *)
Example interleaved_tags_rendered :
  _log_warnings
    [finding [leaf "image" [] 3; leaf "moduleImage" [] 4; leaf "image" [] 5] "T" "{}!"] =
  OK "<i>T</i><br><br>Lines 3, 5: image!<br>Lines 4: moduleImage!<br><br><br>".
Proof. reflexivity. Qed.

(** A package whose configuration file has no warning. *)
Example clean_run :
  check_warnings clean_host "pkg" None =
  ([CheckFomod "pkg"; CheckFile "pkg/fomod"; Parse "pkg/fomod/ModuleConfig.xml";
    Invoke (leaf "folder" [("source", "textures")] 3) None],
   OK tt).
Proof. reflexivity. Qed.

(** ** A supplied tree with a child node *)

Lemma WarningElement_trace root tags heading msg condition ev :
  In ev (trace (_WarningElement root tags heading msg condition)) ->
  exists e, ev = Invoke e None.
Proof.
  rewrite WarningElement_run. simpl. intros H.
  apply in_map_iff in H. destruct H as (e & <- & _). eauto.
Qed.

Lemma element_list_trace host package_path root ev :
  In ev (trace (element_list host package_path root)) -> exists e, ev = Invoke e None.
Proof.
  unfold element_list.
  repeat (rewrite bind_trace; intros H; apply in_app_or in H;
          destruct H as [H | H]; [exact (WarningElement_trace _ _ _ _ _ _ H) |];
          revert H;
          match goal with
          | |- context [outcome ?m] => destruct (outcome m); [| intros []]
          end).
  intros [].
Qed.

Lemma validate_trace host package_path root ev :
  In ev (trace (validate host package_path root)) -> exists e, ev = Invoke e None.
Proof.
  unfold validate. rewrite bind_trace. intros H. apply in_app_or in H.
  destruct H as [H | H]; [exact (element_list_trace _ _ _ _ H) |].
  destruct (outcome (element_list host package_path root)) as [ws |]; [| destruct H].
  rewrite bind_trace in H. simpl in H.
  destruct (_log_warnings (map tag_log ws)) as [r |]; [| destruct H].
  destruct (nonempty r); destruct H.
Qed.

(** X18: when the supplied tree has a child node, it is the tree that is
    validated, and the run calls no collaborator: every call it makes is a
    call of a condition on one element. *)
Lemma supplied_tree_validated host package_path t :
  truth (Some t) = true ->
  check_warnings host package_path (Some t) =
  try_except (validate host package_path t) handler /\
  forall ev, In ev (trace (check_warnings host package_path (Some t))) ->
             exists e, ev = Invoke e None.
Proof.
  intros Ht.
  assert (H : check_warnings host package_path (Some t) =
              try_except (validate host package_path t) handler).
  { rewrite (check_warnings_located _ _ _ (config_root_supplied host package_path t Ht)).
    destruct (validate host package_path t) as [tr res]. reflexivity. }
  split; [exact H |].
  rewrite H. intros ev Hev. apply (validate_trace host package_path t).
  unfold try_except in Hev. destruct (validate host package_path t) as [tr [a | e]]; exact Hev.
Qed.

(** * Further properties of the module *)

(** ** What _ElementLog stores *)

Lemma get_tabulate_absent (V : Type) (g : string -> V) ks k :
  ~ In k ks -> Dict.get (map (fun t => (t, g t)) ks) k = None.
Proof.
  induction ks as [| a ks IH]; simpl; [reflexivity |].
  intros H. destruct (String.eqb_spec a k) as [-> | _]; [tauto |].
  apply IH. tauto.
Qed.

Lemma get_tabulate_cases (V : Type) (g : string -> V) l k :
  Dict.get (map (fun t => (t, g t)) (first_seen l)) k =
  if existsb (String.eqb k) l then Some (g k) else None.
Proof.
  destruct (existsb (String.eqb k) l) eqn:E.
  - apply get_tabulate. apply first_seen_In. apply existsb_eqb_In. exact E.
  - apply get_tabulate_absent. rewrite first_seen_In. intros H.
    apply existsb_eqb_In in H. congruence.
Qed.

(** X1: looking a tag up in the [elements] of a log gives the elements of
    the sequence that have this tag, in the order of the sequence, when
    some element has it, and finds no entry otherwise. *)
Theorem ElementLog_elements_lookup elems heading msg t :
  Dict.get (elements (_ElementLog elems heading msg)) t =
  if existsb (String.eqb t) (map tag elems)
  then Some (filter (fun e => String.eqb (tag e) t) elems)
  else None.
Proof.
  rewrite ElementLog_spec. cbn [elements]. unfold spec_elements.
  apply (get_tabulate_cases (fun t => with_tag t elems)).
Qed.

(** X2: looking a tag up in the [msgs] of a log gives the message with the
    tag put in place of the braces when some element has this tag, and
    finds no entry otherwise; an element seen again leaves it as it is. *)
Theorem ElementLog_msgs_lookup elems heading msg t :
  Dict.get (msgs (_ElementLog elems heading msg)) t =
  if existsb (String.eqb t) (map tag elems)
  then Some (replace msg "{}" t)
  else None.
Proof.
  rewrite ElementLog_spec. cbn [msgs]. unfold spec_msgs.
  apply (get_tabulate_cases (fun t => replace msg "{}" t)).
Qed.

(** X3: the two dictionaries of a log have the same keys in the same order,
    no key twice, and the keys are the tags of the elements. *)
Theorem ElementLog_keys elems heading msg :
  let log := _ElementLog elems heading msg in
  Dict.keys (elements log) = Dict.keys (msgs log) /\
  NoDup (Dict.keys (elements log)) /\
  forall t, In t (Dict.keys (elements log)) <-> exists e, In e elems /\ tag e = t.
Proof.
  cbv zeta. rewrite ElementLog_spec. cbn [elements msgs].
  unfold spec_elements, spec_msgs. rewrite !keys_tabulate.
  split; [reflexivity |]. split; [apply first_seen_NoDup |].
  intros t. rewrite first_seen_In, in_map_iff.
  split; intros (e & H1 & H2); exists e; auto.
Qed.

Lemma concat_split_key (f : string -> list Element) (k : string) ks :
  NoDup ks ->
  Permutation (List.concat (map f ks))
    ((if existsb (String.eqb k) ks then f k else []) ++
     List.concat (map f (filter (fun u => negb (String.eqb u k)) ks))).
Proof.
  induction ks as [| a ks IH]; intros Hnd; [reflexivity |].
  inversion Hnd as [| ? ? Hna Hnd']; subst. specialize (IH Hnd').
  cbn [map List.concat existsb filter].
  rewrite (String.eqb_sym k a).
  destruct (String.eqb_spec a k) as [-> | Hne]; cbn [negb orb].
  - assert (E : existsb (String.eqb k) ks = false).
    { apply not_true_is_false. intros H. apply existsb_eqb_In in H. tauto. }
    rewrite E in IH. simpl in IH. apply Permutation_app_head. exact IH.
  - cbn [map List.concat]. rewrite IH.
    rewrite !app_assoc. apply Permutation_app_tail. apply Permutation_app_comm.
Qed.

Lemma groups_permutation elems :
  Permutation (List.concat (map (fun t => with_tag t elems) (first_seen (map tag elems)))) elems.
Proof.
  induction elems as [| a l IH]; [reflexivity |].
  cbn [map first_seen List.concat].
  unfold with_tag at 1. cbn [filter]. rewrite String.eqb_refl. cbn [app].
  fold (with_tag (tag a) l).
  rewrite (map_ext_in (fun t => with_tag t (a :: l)) (fun t => with_tag t l)).
  - rewrite (concat_split_key (fun t => with_tag t l) (tag a)
               (first_seen_NoDup (map tag l))) in IH.
    rewrite existsb_first_seen in IH.
    destruct (existsb (String.eqb (tag a)) (map tag l)) eqn:E.
    + constructor. exact IH.
    + constructor.
      assert (Hn : with_tag (tag a) l = []).
      { apply with_tag_nil. intros H. apply existsb_eqb_In in H. congruence. }
      rewrite Hn. exact IH.
  - intros t Ht. apply filter_In in Ht. destruct Ht as [_ Ht].
    unfold with_tag. cbn [filter].
    apply negb_true_iff in Ht. rewrite String.eqb_sym, Ht. reflexivity.
Qed.

(** X4: the groups of a log split the sequence: no group is empty, the
    elements of a group have the tag it is stored under, and the groups put
    together hold the elements of the sequence, each as often as the
    sequence has it. *)
Theorem ElementLog_groups_partition elems heading msg :
  let log := _ElementLog elems heading msg in
  Forall (fun kv => snd kv <> [] /\ Forall (fun e => tag e = fst kv) (snd kv))
         (elements log) /\
  Permutation (List.concat (map snd (elements log))) elems.
Proof.
  cbv zeta. rewrite ElementLog_spec. cbn [elements]. unfold spec_elements. split.
  - apply Forall_forall. intros [k group] Hin. apply in_map_iff in Hin.
    destruct Hin as (t & [= <- <-] & Ht). cbn [fst snd]. split.
    + apply with_tag_nonempty. apply first_seen_In. exact Ht.
    + apply Forall_forall. intros e He. unfold with_tag in He.
      apply filter_In in He. apply String.eqb_eq. tauto.
  - rewrite map_map. cbn [snd]. apply groups_permutation.
Qed.

(** ** _log_warnings on any logs *)

Lemma append_empty (a b : string) : a ++ b = "" -> a = "" /\ b = "".
Proof. destruct a; simpl; [auto | discriminate]. Qed.

Lemma drop_last_app (a b : string) : b <> "" -> drop_last (a ++ b) = a ++ drop_last b.
Proof.
  intros Hb. induction a as [| x a IH]; [reflexivity |].
  change (drop_last (String x (a ++ b)) = String x (a ++ drop_last b)).
  simpl drop_last. rewrite IH.
  destruct (a ++ b) eqn:E; [| reflexivity].
  apply append_empty in E. tauto.
Qed.

Lemma log_lines_acc elems : forall a b, log_lines elems (a ++ b) = a ++ log_lines elems b.
Proof.
  induction elems as [| e elems IH]; intros a b; [reflexivity |].
  cbn [log_lines]. rewrite append_assoc. apply IH.
Qed.

Lemma log_lines_nonempty_acc elems b : b <> "" -> log_lines elems b <> "".
Proof.
  intros Hb H. rewrite <- (append_nil_r b), log_lines_acc in H.
  apply append_empty in H. tauto.
Qed.

Lemma log_tags_acc log ks : forall a b,
  log_tags log ks (a ++ b) =
  match log_tags log ks b with
  | OK r => OK (a ++ r)
  | Raise e => Raise e
  end.
Proof.
  induction ks as [| t ks IH]; intros a b; [reflexivity |].
  cbn [log_tags].
  destruct (Dict.get (elements log) t) as [elems |]; [| reflexivity].
  destruct (Dict.get (msgs log) t) as [m |]; [| reflexivity].
  rewrite (append_assoc a b "Lines"), log_lines_acc.
  rewrite drop_last_app
    by (apply log_lines_nonempty_acc; intros H; apply append_empty in H;
        destruct H; discriminate).
  rewrite append_assoc. apply IH.
Qed.

Lemma log_logs_acc list_ : forall a b,
  log_logs list_ (a ++ b) =
  match log_logs list_ b with
  | OK r => OK (a ++ r)
  | Raise e => Raise e
  end.
Proof.
  induction list_ as [| [log |] rest IH]; intros a b; [reflexivity | | apply IH].
  cbn [log_logs].
  rewrite (append_assoc a b), log_tags_acc.
  destruct (log_tags log (Dict.keys (elements log)) (b ++ "<i>" ++ title log ++ "</i><br><br>"))
    as [r | e]; [| reflexivity].
  rewrite append_assoc. apply IH.
Qed.

Lemma log_logs_from list_ a :
  log_logs list_ a =
  match _log_warnings list_ with
  | OK r => OK (a ++ r)
  | Raise e => Raise e
  end.
Proof.
  unfold _log_warnings. rewrite <- (append_nil_r a) at 1. apply log_logs_acc.
Qed.

Lemma log_logs_app l1 l2 : forall a,
  log_logs (l1 ++ l2) a =
  match log_logs l1 a with
  | OK r => log_logs l2 r
  | Raise e => Raise e
  end.
Proof.
  induction l1 as [| [log |] l1 IH]; intros a; [reflexivity | | apply IH].
  cbn [app log_logs].
  destruct (log_tags log (Dict.keys (elements log)) (a ++ "<i>" ++ title log ++ "</i><br><br>"));
    [apply IH | reflexivity].
Qed.

(** X5: the text of two lists of logs put end to end is the text of the
    first followed by the text of the second; a KeyError of the first
    comes before one of the second. *)
Theorem log_warnings_app l1 l2 :
  _log_warnings (l1 ++ l2) =
  match _log_warnings l1 with
  | OK r1 => match _log_warnings l2 with
             | OK r2 => OK (r1 ++ r2)
             | Raise e => Raise e
             end
  | Raise e => Raise e
  end.
Proof.
  unfold _log_warnings at 1. rewrite log_logs_app.
  fold (_log_warnings l1).
  destruct (_log_warnings l1) as [r1 | e]; [| reflexivity].
  apply log_logs_from.
Qed.

(** X6: [_log_warnings] returns the empty string exactly when no entry of
    the list is a log; an entry that is [None] adds nothing to the text. *)
Theorem log_warnings_empty_iff list_ :
  (_log_warnings list_ = OK "" <-> Forall (fun o => o = None) list_) /\
  _log_warnings (None :: list_) = _log_warnings list_.
Proof.
  split; [| reflexivity]. split.
  - induction list_ as [| [log |] rest IH]; intros H.
    + constructor.
    + exfalso. unfold _log_warnings in H. cbn [log_logs] in H.
      destruct (log_tags log (Dict.keys (elements log)) ("" ++ "<i>" ++ title log ++ "</i><br><br>"))
        as [r |]; [| discriminate].
      rewrite log_logs_from in H.
      destruct (_log_warnings rest) as [r' |]; [| discriminate].
      injection H as H. rewrite append_assoc in H.
      apply append_empty in H. destruct H as [_ H]. discriminate.
    + constructor; [reflexivity | apply IH; exact H].
  - induction 1 as [| o rest Ho _ IH]; [reflexivity |].
    subst o. exact IH.
Qed.

Lemma get_key (V : Type) (d : Dict.t V) t :
  In t (Dict.keys d) -> Dict.get d t <> None.
Proof.
  induction d as [| [k v] d IH]; simpl; [tauto |].
  intros H. destruct (String.eqb_spec k t) as [_ | Hne]; [discriminate |].
  apply IH. destruct H; [congruence | assumption].
Qed.

Lemma log_tags_ok_iff log ks : forall a,
  (forall t, In t ks -> In t (Dict.keys (elements log))) ->
  ((exists r, log_tags log ks a = OK r) <->
   (forall t, In t ks -> Dict.get (msgs log) t <> None)) /\
  (forall e, log_tags log ks a = Raise e ->
     exists t, In t ks /\ Dict.get (msgs log) t = None /\ e = KeyError t).
Proof.
  induction ks as [| t ks IH]; intros a Hks.
  - split; [split; [intros _ t [] | intros _; eexists; reflexivity] | discriminate].
  - cbn [log_tags].
    assert (Hget : Dict.get (elements log) t <> None)
      by (apply get_key; apply Hks; left; reflexivity).
    destruct (Dict.get (elements log) t) as [elems |]; [clear Hget | congruence].
    destruct (Dict.get (msgs log) t) as [m |] eqn:Em.
    + match goal with |- context [log_tags log ks ?x] =>
        destruct (IH x (fun u Hu => Hks u (or_intror Hu))) as [[I1 I2] I3] end.
      split; [split |].
      * intros Hr u [<- | Hu]; [congruence | exact (I1 Hr u Hu)].
      * intros H. apply I2. intros u Hu. apply H. right. exact Hu.
      * intros e He. destruct (I3 e He) as (u & Hu & Hn & ->).
        exists u. simpl. auto.
    + split; [split |].
      * intros [r Hr]. discriminate.
      * intros H. exfalso. apply (H t); [left; reflexivity | exact Em].
      * intros e [= <-]. exists t. simpl. auto.
Qed.

(** X7: [_log_warnings] returns a text exactly when, in every log of the
    list, each tag of [elements] has a message; what it raises otherwise
    is the KeyError of a tag without a message. *)
Theorem log_warnings_ok_iff list_ :
  ((exists r, _log_warnings list_ = OK r) <->
   (forall log, In (Some log) list_ -> has_messages log)) /\
  (forall e, _log_warnings list_ = Raise e ->
     exists log t, In (Some log) list_ /\ In t (Dict.keys (elements log)) /\
                   Dict.get (msgs log) t = None /\ e = KeyError t).
Proof.
  induction list_ as [| [log |] rest IH].
  - split; [split; [intros _ log [] | intros _; eexists; reflexivity] | discriminate].
  - destruct IH as [[I1 I2] I3].
    unfold _log_warnings. cbn [log_logs].
    destruct (log_tags_ok_iff log (Dict.keys (elements log))
                ("" ++ "<i>" ++ title log ++ "</i><br><br>") (fun t H => H))
      as [[T1 T2] T3].
    destruct (log_tags log (Dict.keys (elements log)) ("" ++ "<i>" ++ title log ++ "</i><br><br>"))
      as [r |] eqn:Et.
    + rewrite log_logs_from.
      split; [split |].
      * intros [r' Hr'] log' [[= <-] | Hin]; [exact (T1 (ex_intro _ r eq_refl)) |].
        apply I1; [| exact Hin].
        destruct (_log_warnings rest); [eexists; reflexivity | discriminate].
      * intros H. destruct I2 as [r' Hr'].
        { intros log' Hin. apply H. right. exact Hin. }
        rewrite Hr'. eexists; reflexivity.
      * intros e He. destruct (_log_warnings rest) as [| e'] eqn:Er; [discriminate |].
        injection He as <-.
        destruct (I3 e' eq_refl) as (log' & t & Hin & Ht & Hn & ->).
        exists log', t. simpl. auto.
    + split; [split |].
      * intros [r' Hr']. discriminate.
      * intros H. exfalso. destruct T2 as [r' Hr']; [| discriminate].
        apply (H log). left. reflexivity.
      * intros e' [= <-]. destruct (T3 e eq_refl) as (t & Ht & Hn & ->).
        exists log, t. simpl. auto.
  - destruct IH as [[I1 I2] I3]. change (_log_warnings (None :: rest)) with (_log_warnings rest).
    split; [split |].
    + intros Hr log [H | Hin]; [discriminate | exact (I1 Hr log Hin)].
    + intros H. apply I2. intros log Hin. apply H. right. exact Hin.
    + intros e He. destruct (I3 e He) as (log & t & Hin & Ht & Hn & ->).
      exists log, t. simpl. auto.
Qed.

(** A log without the message of its tag makes [_log_warnings] raise the
    KeyError of that tag. *)
Example log_without_message_raises :
  _log_warnings [Some log_without_message] = Raise (KeyError "folder").
Proof. reflexivity. Qed.

(** ** What _WarningElement calls and stores *)

Lemma first_error_none body l :
  (forall e, In e l -> exists b, body e = OK b) <-> first_error body l = None.
Proof.
  induction l as [| a l IH]; simpl.
  - split; [reflexivity | intros _ e []].
  - split.
    + intros H. destruct (H a (or_introl eq_refl)) as [b ->].
      apply IH. intros e He. apply H. right. exact He.
    + destruct (body a) as [b |] eqn:Ha; [| discriminate].
      intros H e [<- | He]; [eauto | exact (proj2 IH H e He)].
Qed.

Lemma evaluated_all body l : first_error body l = None -> evaluated body l = l.
Proof.
  induction l as [| a l IH]; simpl; [reflexivity |].
  destruct (body a); [| discriminate]. intros H. rewrite IH by exact H. reflexivity.
Qed.

(** X8: with a condition of one parameter that raises on no matched
    element, [_WarningElement] calls the condition once on each matched
    element, in document order and with that element alone, and keeps in
    its log the matched elements on which the condition returned true. *)
Theorem WarningElement_calls_each_once root tags heading msg body :
  (forall e, In e (matched tags root) -> exists b, body e = OK b) ->
  _WarningElement root tags heading msg (Lambda1 body) =
  (map (fun e => Invoke e None) (matched tags root),
   OK {| tag_log :=
           finding (filter (fun e => returns_true (body e)) (matched tags root))
                   heading msg |}).
Proof.
  intros H. apply first_error_none in H.
  rewrite WarningElement_Lambda1, H, (evaluated_all _ _ H). reflexivity.
Qed.

Lemma WarningElement_calls_each_once_witness :
  (forall e, In e (matched folder_tags some_missing) ->
     exists b, (fun x => OK (String.eqb (tag x) "folder")) e = OK b) /\
  _WarningElement some_missing folder_tags "T" "m"
    (Lambda1 (fun x => OK (String.eqb (tag x) "folder"))) =
  (map (fun e => Invoke e None) (matched folder_tags some_missing),
   OK {| tag_log :=
           finding (filter (fun e => returns_true (OK (String.eqb (tag e) "folder")))
                      (matched folder_tags some_missing)) "T" "m" |}).
Proof.
  assert (H : forall e, In e (matched folder_tags some_missing) ->
                exists b, (fun x => OK (String.eqb (tag x) "folder")) e = OK b)
    by (intros e _; eexists; reflexivity).
  split; [exact H |].
  exact (@WarningElement_calls_each_once some_missing folder_tags "T" "m"
           (fun x => OK (String.eqb (tag x) "folder")) H).
Defined.

(** X9: what [_WarningElement] stores when it returns: no log exactly when
    no matched element was flagged, and otherwise a log with the title of
    the rule and at least one tag, in which every tag is one of the rule's
    tags and has a message, and every group is a non-empty list of
    elements of the tree that carry the tag of the group. *)
Theorem WarningElement_log_invariant root tags heading msg condition w :
  outcome (_WarningElement root tags heading msg condition) = OK w ->
  match tag_log w with
  | None => flagged condition tags root = []
  | Some log =>
      flagged condition tags root <> [] /\
      title log = heading /\
      elements log <> [] /\
      has_messages log /\
      Forall (fun kv =>
                tag_in (fst kv) tags = true /\ snd kv <> [] /\
                Forall (fun e => In e (iter root) /\ tag e = fst kv) (snd kv))
             (elements log)
  end.
Proof.
  rewrite WarningElement_run. cbn [outcome snd].
  destruct (first_error _ (matched tags root)); [discriminate |].
  intros [= <-]. cbn [tag_log].
  assert (Hsub : forall e, In e (flagged condition tags root) ->
                           In e (iter root) /\ tag_in (tag e) tags = true).
  { intros e He. unfold flagged in He. apply filter_In in He.
    apply matched_In. tauto. }
  destruct (flagged condition tags root) as [| e es] eqn:E; [reflexivity |].
  cbn [finding]. rewrite ElementLog_spec. cbn [elements title msgs].
  split; [discriminate |]. split; [reflexivity |]. split; [discriminate |].
  revert Hsub. generalize (e :: es). clear E e es. intros fl Hsub. split.
  - unfold has_messages. cbn [elements msgs]. intros t Ht.
    unfold spec_elements in Ht. rewrite keys_tabulate in Ht.
    unfold spec_msgs. rewrite get_tabulate by exact Ht. discriminate.
  - apply Forall_forall. intros [k group] Hin. unfold spec_elements in Hin.
    apply in_map_iff in Hin. destruct Hin as (t & [= <- <-] & Ht). cbn [fst snd].
    rewrite first_seen_In in Ht. split; [| split].
    + apply in_map_iff in Ht. destruct Ht as (x & <- & Hx). apply Hsub. exact Hx.
    + apply with_tag_nonempty. exact Ht.
    + apply Forall_forall. intros x Hx. unfold with_tag in Hx.
      apply filter_In in Hx. destruct Hx as [Hx Htag].
      split; [apply Hsub; exact Hx | apply String.eqb_eq; exact Htag].
Qed.

Lemma WarningElement_log_invariant_witness :
  let w := {| tag_log := finding (flagged (folder_condition bare_host "pkg") folder_tags
                                    some_missing) folder_title folder_msg |} in
  outcome (_WarningElement some_missing folder_tags folder_title folder_msg
             (folder_condition bare_host "pkg")) = OK w /\
  match tag_log w with
  | None => flagged (folder_condition bare_host "pkg") folder_tags some_missing = []
  | Some log =>
      flagged (folder_condition bare_host "pkg") folder_tags some_missing <> [] /\
      title log = folder_title /\
      elements log <> [] /\
      has_messages log /\
      Forall (fun kv =>
                tag_in (fst kv) folder_tags = true /\ snd kv <> [] /\
                Forall (fun e => In e (iter some_missing) /\ tag e = fst kv) (snd kv))
             (elements log)
  end.
Proof.
  cbv zeta. split; [reflexivity |].
  apply (@WarningElement_log_invariant some_missing folder_tags folder_title folder_msg
           (folder_condition bare_host "pkg")).
  reflexivity.
Defined.

(** X10: when the four rules return, the conditions of the three
    file-system rules have been called once on each element they match,
    rule after rule and in document order within a rule, each call with
    the element alone; the first rule has matched nothing. *)
Theorem element_list_calls host package_path root ws :
  outcome (element_list host package_path root) = OK ws ->
  matched repeated_tags root = [] /\
  trace (element_list host package_path root) =
  map (fun e => Invoke e None)
      (matched folder_tags root ++ matched file_tags root ++ matched image_tags root).
Proof.
  intros H. rewrite element_list_outcome in H. apply rule_results_ok in H.
  destruct H as [_ Hnone].
  assert (H1 := Hnone repeated_tags repeated_title repeated_msg repeated_condition
                  (or_introl eq_refl)).
  assert (H2 := Hnone folder_tags folder_title folder_msg
                  (folder_condition host package_path) (or_intror (or_introl eq_refl))).
  assert (H3 := Hnone file_tags file_title file_msg (file_condition host package_path)
                  (or_intror (or_intror (or_introl eq_refl)))).
  assert (H4 := Hnone image_tags image_title image_msg (image_condition host package_path)
                  (or_intror (or_intror (or_intror (or_introl eq_refl))))).
  assert (Hrep := repeated_rule_passes root H1).
  split; [exact Hrep |].
  rewrite element_list_trace_rules. unfold rules. cbn [rule_traces].
  rewrite H1, H2, H3, H4.
  rewrite (evaluated_all _ _ H1), (evaluated_all _ _ H2), (evaluated_all _ _ H3),
    (evaluated_all _ _ H4).
  rewrite Hrep, app_nil_r, !map_app. reflexivity.
Qed.

Lemma element_list_calls_witness :
  outcome (element_list bare_host "pkg" some_missing) =
  OK (logs_of bare_host "pkg" some_missing) /\
  matched repeated_tags some_missing = [] /\
  trace (element_list bare_host "pkg" some_missing) =
  map (fun e => Invoke e None)
      (matched folder_tags some_missing ++ matched file_tags some_missing ++
       matched image_tags some_missing).
Proof.
  split; [reflexivity |].
  apply (@element_list_calls bare_host "pkg" some_missing
           (logs_of bare_host "pkg" some_missing)).
  reflexivity.
Defined.

(** ** The outcomes of check_warnings *)

Lemma spec_report_empty_iff fs :
  spec_report fs = "" <-> Forall (fun f => snd f = []) fs.
Proof.
  unfold spec_report. induction fs as [| [[heading msg] fl] fs IH]; cbn [map join_all fold_right].
  - split; [constructor | reflexivity].
  - fold (join_all (map (fun '(heading, msg, fl) => spec_finding heading msg fl) fs)).
    split.
    + intros H. apply append_empty in H. destruct H as [H1 H2].
      constructor; [| apply IH; exact H2].
      destruct fl; [reflexivity | discriminate].
    + intros H. inversion H as [| ? ? H1 H2]; subst. cbn [snd] in H1. subst fl.
      apply IH. exact H2.
Qed.

Lemma nonempty_false s : nonempty s = false <-> s = "".
Proof. destruct s; simpl; split; congruence. Qed.

(** What the part of [check_warnings] after the choice of the tree ends
    with. *)
Lemma validate_outcome host package_path root :
  outcome (validate host package_path root) =
  match rule_results root (rules host package_path) with
  | Raise _ => Raise TypeError
  | OK _ =>
      if nonempty (spec_report (findings_of host package_path root))
      then Raise (WarningError (spec_report (findings_of host package_path root)))
      else OK tt
  end.
Proof.
  destruct (outcome (element_list host package_path root)) as [ws | ex] eqn:E.
  - assert (Hl : element_list host package_path root =
                 (trace (element_list host package_path root), OK ws))
      by (rewrite <- E; apply M_eta).
    rewrite element_list_outcome in E. rewrite E.
    apply rule_results_ok in E. destruct E as [Hws _].
    assert (Hlog : _log_warnings (map tag_log ws) =
                   OK (spec_report (findings_of host package_path root))).
    { rewrite Hws. exact (log_warnings_spec (findings_of host package_path root)). }
    rewrite (validate_ok host package_path root Hl Hlog). reflexivity.
  - assert (ex = TypeError) by (eapply element_list_error; exact E). subst ex.
    assert (Hl : element_list host package_path root =
                 (trace (element_list host package_path root), Raise TypeError))
      by (rewrite <- E; apply M_eta).
    rewrite element_list_outcome in E. rewrite E.
    rewrite (validate_raise host package_path root Hl). reflexivity.
Qed.

Lemma check_warnings_outcome host package_path elem_tree :
  outcome (check_warnings host package_path elem_tree) =
  match outcome (config_root host package_path elem_tree) with
  | Raise e => Raise (handler e)
  | OK root =>
      match outcome (validate host package_path root) with
      | Raise e => Raise (handler e)
      | OK u => OK u
      end
  end.
Proof.
  rewrite check_warnings_validate.
  destruct (config_root host package_path elem_tree) as [l [root | e]]; [| reflexivity].
  cbn [bind outcome snd].
  destruct (validate host package_path root) as [l' [u | e]]; reflexivity.
Qed.



Lemma handler_not_ParseError e m : handler e <> ParseError m.
Proof. destruct e; simpl; discriminate. Qed.

(** X12: whatever the arguments and the collaborators, [check_warnings]
    never ends with lxml's ParseError: one raised by a collaborator
    reaches the caller as a ParserError. *)
Theorem check_warnings_never_ParseError host package_path elem_tree m :
  outcome (check_warnings host package_path elem_tree) <> Raise (ParseError m).
Proof.
  rewrite check_warnings_outcome.
  destruct (outcome (config_root host package_path elem_tree)) as [root | e].
  - destruct (outcome (validate host package_path root)) as [u | e]; [discriminate |].
    intros [= H]. exact (handler_not_ParseError _ H).
  - intros [= H]. exact (handler_not_ParseError _ H).
Qed.

(** X13: when [elem_tree] is absent or false, the collaborators are called
    in turn, each after the one before has returned and on the path joined
    from what came before, and the rules run only once the parser has
    returned a tree. *)
Theorem check_warnings_locates_in_order host package_path elem_tree :
  truth elem_tree = false ->
  trace (check_warnings host package_path elem_tree) =
  match check_fomod host package_path with
  | Raise _ => [CheckFomod package_path]
  | OK fomod_folder =>
      let folder := join host package_path fomod_folder in
      match check_file host folder with
      | Raise _ => [CheckFomod package_path; CheckFile folder]
      | OK config_file =>
          ([CheckFomod package_path; CheckFile folder; Parse (join host folder config_file)] ++
           match parse host (join host folder config_file) with
           | Raise _ => []
           | OK root => trace (validate host package_path root)
           end)%list
      end
  end.
Proof.
  intros Ht. rewrite check_warnings_validate.
  assert (Hc : config_root host package_path elem_tree = locate host package_path).
  { unfold config_root. destruct elem_tree; [rewrite Ht |]; reflexivity. }
  rewrite Hc. unfold locate, tell, lift.
  destruct (check_fomod host package_path) as [fomod_folder |]; [| reflexivity].
  cbv zeta. cbn [bind app].
  destruct (check_file host (join host package_path fomod_folder)) as [config_file |];
    [| reflexivity].
  cbn [bind app].
  destruct (parse host (join host (join host package_path fomod_folder) config_file))
    as [root |]; [| reflexivity].
  cbn [bind app]. destruct (validate host package_path root) as [tr [u | e]]; reflexivity.
Qed.

Lemma check_warnings_locates_in_order_witness :
  truth (Some childless) = false /\
  trace (check_warnings clean_host "pkg" (Some childless)) =
  [CheckFomod "pkg"; CheckFile "pkg/fomod"; Parse "pkg/fomod/ModuleConfig.xml";
   Invoke (leaf "folder" [("source", "textures")] 3) None].
Proof.
  split; [reflexivity |].
  exact (@check_warnings_locates_in_order clean_host "pkg" (Some childless) eq_refl).
Defined.

(** X14: an exception of a collaborator that is not a ParseError reaches
    the caller of [check_warnings] as it is, whether or not an [except]
    clause names it. *)
Theorem collaborator_error_propagates host package_path elem_tree e :
  truth elem_tree = false ->
  location_fails host package_path e ->
  (forall m, e <> ParseError m) ->
  outcome (check_warnings host package_path elem_tree) = Raise e.
Proof.
  intros Ht Hfail Hne. rewrite check_warnings_outcome.
  assert (Hc : config_root host package_path elem_tree = locate host package_path).
  { unfold config_root. destruct elem_tree; [rewrite Ht |]; reflexivity. }
  rewrite Hc, (locate_fails Hfail).
  destruct e; try reflexivity. exfalso. exact (Hne _ eq_refl).
Qed.

Lemma collaborator_error_propagates_witness :
  location_fails clean_host "elsewhere" (OtherError "OSError") /\
  outcome (check_warnings clean_host "elsewhere" None) = Raise (OtherError "OSError").
Proof.
  assert (H : location_fails clean_host "elsewhere" (OtherError "OSError"))
    by (right; exists "fomod"; split; [reflexivity |];
        right; exists "ModuleConfig.xml"; split; reflexivity).
  split; [exact H |].
  apply (@collaborator_error_propagates clean_host "elsewhere" None
           (OtherError "OSError") eq_refl H).
  intros m. discriminate.
Defined.

Lemma supplied_tree_validated_witness :
  truth (Some some_missing) = true /\
  check_warnings bare_host "pkg" (Some some_missing) =
  try_except (validate bare_host "pkg" some_missing) handler /\
  forall ev, In ev (trace (check_warnings bare_host "pkg" (Some some_missing))) ->
             exists e, ev = Invoke e None.
Proof.
  split; [reflexivity |].
  exact (@supplied_tree_validated bare_host "pkg" some_missing eq_refl).
Defined.

(** ** When check_warnings returns *)

Lemma quiet_iff body l :
  first_error body l = None /\ filter (fun e => returns_true (body e)) l = [] <->
  forall e : Element, In e l -> body e = OK false.
Proof.
  induction l as [| a l IH]; simpl.
  - split; [intros _ e [] | auto].
  - split.
    + intros [H1 H2]. destruct (body a) as [[|] |] eqn:Ha; simpl in H2; try discriminate.
      intros e [<- | He]; [exact Ha | apply IH; auto].
    + intros H. rewrite (H a (or_introl eq_refl)). simpl.
      apply IH. intros e He. apply H. right. exact He.
Qed.

Lemma join_attr_false host package_path (test : string -> bool) v :
  match join_attr host package_path v with
  | OK p => OK (negb (test p))
  | Raise e => Raise e
  end = OK false <->
  exists s, v = Some s /\ test (join host package_path s) = true.
Proof.
  destruct v as [s |]; simpl.
  - split.
    + intros [= H]. apply negb_false_iff in H. eauto.
    + intros (s' & [= <-] & H). rewrite H. reflexivity.
  - split; [discriminate | intros (s & H & _); discriminate].
Qed.

(** X15: on the tree it validates, [check_warnings] returns exactly when
    no element has a tag of the first rule and every [folder], [file] and
    [image] element has its attribute, naming a folder or a file that
    exists. *)
Theorem check_warnings_returns_iff host package_path elem_tree l root :
  config_root host package_path elem_tree = (l, OK root) ->
  (outcome (check_warnings host package_path elem_tree) = OK tt <->
   matched repeated_tags root = [] /\ all_present host package_path root).
Proof.
  intros Hroot. rewrite check_warnings_outcome, Hroot. cbn [outcome snd].
  fold (outcome (validate host package_path root)). rewrite validate_outcome.
  split.
  - destruct (rule_results root (rules host package_path)) as [ws |] eqn:E;
      [| discriminate].
    destruct (nonempty (spec_report (findings_of host package_path root))) eqn:N;
      [discriminate |].
    intros _. apply nonempty_false, spec_report_empty_iff in N.
    apply rule_results_ok in E. destruct E as [_ Hnone].
    unfold findings_of, rules in N. cbn [map] in N.
    inversion N as [| ? ? _ N2]; subst. inversion N2 as [| ? ? F2 N3]; subst.
    inversion N3 as [| ? ? F3 N4]; subst. inversion N4 as [| ? ? F4 _]; subst.
    cbn [snd] in F2, F3, F4.
    assert (H1 := Hnone repeated_tags repeated_title repeated_msg repeated_condition
                    (or_introl eq_refl)).
    assert (H2 := Hnone folder_tags folder_title folder_msg
                    (folder_condition host package_path) (or_intror (or_introl eq_refl))).
    assert (H3 := Hnone file_tags file_title file_msg (file_condition host package_path)
                    (or_intror (or_intror (or_introl eq_refl)))).
    assert (H4 := Hnone image_tags image_title image_msg
                    (image_condition host package_path)
                    (or_intror (or_intror (or_intror (or_introl eq_refl))))).
    split; [exact (repeated_rule_passes root H1) |].
    pose proof (proj1 (quiet_iff _ _) (conj H2 F2)) as Q2.
    pose proof (proj1 (quiet_iff _ _) (conj H3 F3)) as Q3.
    pose proof (proj1 (quiet_iff _ _) (conj H4 F4)) as Q4.
    intros e He. split; [| split]; intros Ht.
    + apply (join_attr_false host package_path (isdir host)).
      apply (Q2 e). apply matched_In. split; [exact He | rewrite Ht; reflexivity].
    + apply (join_attr_false host package_path (isfile host)).
      apply (Q3 e). apply matched_In. split; [exact He | rewrite Ht; reflexivity].
    + apply (join_attr_false host package_path (isfile host)).
      apply (Q4 e). apply matched_In. split; [exact He | rewrite Ht; reflexivity].
  - intros [Hrep Hall].
    assert (Q2 : forall e, In e (matched folder_tags root) ->
                   outcome (call1 (folder_condition host package_path) e) = OK false).
    { intros e He. apply matched_In in He. destruct He as [He Ht].
      apply tag_in_one in Ht.
      apply (join_attr_false host package_path (isdir host)). apply (Hall e He). exact Ht. }
    assert (Q3 : forall e, In e (matched file_tags root) ->
                   outcome (call1 (file_condition host package_path) e) = OK false).
    { intros e He. apply matched_In in He. destruct He as [He Ht].
      apply tag_in_one in Ht.
      apply (join_attr_false host package_path (isfile host)). apply (Hall e He). exact Ht. }
    assert (Q4 : forall e, In e (matched image_tags root) ->
                   outcome (call1 (image_condition host package_path) e) = OK false).
    { intros e He. apply matched_In in He. destruct He as [He Ht].
      apply tag_in_two in Ht. destruct Ht as [Ht | Ht].
      - exfalso. assert (Hm : In e (matched repeated_tags root))
          by (apply matched_In; split; [exact He | rewrite Ht; reflexivity]).
        rewrite Hrep in Hm. destruct Hm.
      - apply (join_attr_false host package_path (isfile host)).
        apply (Hall e He). exact Ht. }
    apply quiet_iff in Q2. apply quiet_iff in Q3. apply quiet_iff in Q4.
    destruct Q2 as [E2 F2], Q3 as [E3 F3], Q4 as [E4 F4].
    assert (F : Forall (fun f : string * string * list Element => snd f = [])
                  (findings_of host package_path root)).
    { unfold findings_of, rules, flagged. cbn [map]. rewrite Hrep.
      repeat constructor; assumption. }
    apply spec_report_empty_iff in F. rewrite F.
    unfold rules. cbn [rule_results rule_result]. rewrite Hrep, E2, E3, E4. reflexivity.
Qed.

Lemma check_warnings_returns_iff_witness :
  config_root clean_host "pkg" (Some clean_tree) = ([], OK clean_tree) /\
  (outcome (check_warnings clean_host "pkg" (Some clean_tree)) = OK tt <->
   matched repeated_tags clean_tree = [] /\ all_present clean_host "pkg" clean_tree).
Proof.
  split; [reflexivity |].
  exact (@check_warnings_returns_iff clean_host "pkg" (Some clean_tree) [] clean_tree
           eq_refl).
Defined.

(** X16: a report never has a Repeated Elements section: a run that ends
    with a WarningError has matched no element of the first rule, its
    report is made of the three file-system sections, and the Missing
    Images section lists [image] elements only. *)
Theorem report_without_repeated_section host package_path elem_tree l root r :
  config_root host package_path elem_tree = (l, OK root) ->
  outcome (check_warnings host package_path elem_tree) = Raise (WarningError r) ->
  matched repeated_tags root = [] /\
  r = spec_finding folder_title folder_msg
        (flagged (folder_condition host package_path) folder_tags root) ++
      spec_finding file_title file_msg
        (flagged (file_condition host package_path) file_tags root) ++
      spec_finding image_title image_msg
        (flagged (image_condition host package_path) image_tags root) /\
  forall e, In e (flagged (image_condition host package_path) image_tags root) ->
            tag e = "image".
Proof.
  intros Hroot. rewrite check_warnings_outcome, Hroot. cbn [outcome snd].
  fold (outcome (validate host package_path root)). rewrite validate_outcome.
  destruct (rule_results root (rules host package_path)) as [ws |] eqn:E;
    [| discriminate].
  destruct (nonempty (spec_report (findings_of host package_path root)));
    [| discriminate].
  intros [= <-]. apply rule_results_ok in E. destruct E as [_ Hnone].
  assert (Hrep : matched repeated_tags root = []).
  { apply repeated_rule_passes.
    apply (Hnone repeated_tags repeated_title repeated_msg). simpl. auto. }
  split; [exact Hrep |]. split.
  - unfold spec_report, findings_of, rules. cbn [map join_all fold_right].
    unfold flagged at 1. rewrite Hrep. cbn [filter spec_finding append].
    rewrite append_nil_r. reflexivity.
  - intros e He. unfold flagged in He. apply filter_In in He. destruct He as [He _].
    apply matched_In in He. destruct He as [He Ht].
    apply tag_in_two in Ht. destruct Ht as [Ht | Ht]; [| exact Ht].
    exfalso. assert (Hm : In e (matched repeated_tags root))
      by (apply matched_In; split; [exact He | rewrite Ht; reflexivity]).
    rewrite Hrep in Hm. destruct Hm.
Qed.

Lemma report_without_repeated_section_witness :
  let r := report_of bare_host "pkg" some_missing in
  outcome (check_warnings bare_host "pkg" (Some some_missing)) = Raise (WarningError r) /\
  matched repeated_tags some_missing = [] /\
  r = spec_finding folder_title folder_msg
        (flagged (folder_condition bare_host "pkg") folder_tags some_missing) ++
      spec_finding file_title file_msg
        (flagged (file_condition bare_host "pkg") file_tags some_missing) ++
      spec_finding image_title image_msg
        (flagged (image_condition bare_host "pkg") image_tags some_missing) /\
  forall e, In e (flagged (image_condition bare_host "pkg") image_tags some_missing) ->
            tag e = "image".
Proof.
  split; [reflexivity |].
  apply (@report_without_repeated_section bare_host "pkg" (Some some_missing) []
           some_missing); reflexivity.
Defined.

(** ** The condition of the first rule, called with two arguments *)

Lemma filter_two (p : Element -> bool) l :
  2 <= List.length (filter p l) <->
  exists l1 x l2 y l3,
    l = (l1 ++ x :: l2 ++ y :: l3)%list /\ p x = true /\ p y = true.
Proof.
  split.
  - induction l as [| a l IH]; simpl; [lia |].
    destruct (p a) eqn:Ha; simpl.
    + intros H.
      destruct (filter p l) as [| y ys] eqn:F; [simpl in H; lia |].
      assert (Hy : In y (filter p l)) by (rewrite F; left; reflexivity).
      apply filter_In in Hy. destruct Hy as [Hin Hp].
      apply in_split in Hin. destruct Hin as (l2 & l3 & ->).
      exists [], a, l2, y, l3. auto.
    + intros H. destruct (IH H) as (l1 & x & l2 & y & l3 & -> & Hx & Hy).
      exists (a :: l1), x, l2, y, l3. auto.
  - intros (l1 & x & l2 & y & l3 & -> & Hx & Hy).
    rewrite filter_app. cbn [filter]. rewrite Hx, filter_app. cbn [filter]. rewrite Hy.
    rewrite length_app. cbn [List.length]. rewrite length_app. cbn [List.length]. lia.
Qed.

(** X17: called with an element and a sequence, the condition of the first
    rule returns, and it returns true exactly when the sequence has two
    entries with the tag of the element; so the entries of a sequence that
    share a tag are all flagged or all passed, the first like the others. *)
Theorem repeated_condition_two_arguments elem x :
  exists b,
    outcome (call2 repeated_condition elem x) = OK b /\
    (b = true <->
     exists l1 e1 l2 e2 l3,
       x = (l1 ++ e1 :: l2 ++ e2 :: l3)%list /\ tag e1 = tag elem /\ tag e2 = tag elem) /\
    forall other, tag other = tag elem ->
                  outcome (call2 repeated_condition other x) = OK b.
Proof.
  eexists. split; [reflexivity |]. split.
  - rewrite Nat.leb_le, filter_two. split.
    + intros (l1 & e1 & l2 & e2 & l3 & H & H1 & H2).
      apply String.eqb_eq in H1, H2. exists l1, e1, l2, e2, l3. auto.
    + intros (l1 & e1 & l2 & e2 & l3 & H & H1 & H2).
      apply String.eqb_eq in H1, H2. exists l1, e1, l2, e2, l3. auto.
  - intros other Ht. simpl. rewrite Ht. reflexivity.
Qed.
